(** * composer.profiler.profiler: the sampling-window profiler and its markers

    A shallow embedding of [src/composer/profiler/profiler.py].

    Python integers are [Z]; [%] is the floor remainder and raises
    [ZeroDivisionError] on a zero divisor.  Marker objects live in a heap
    and are named by their address, so that two references to one object
    are told apart from two equal objects.  Methods are computations in a
    state-and-exception monad over the [World]: the host loop's counters,
    the marker heap, the profiler object and the calls received so far by
    the event handlers. *)

From Stdlib Require Import ZArith Lia Ascii String.
From Stdlib.Strings Require Import Byte.
From stdpp Require Import base decidable option list strings pretty gmap.

Local Open Scope string_scope.
Local Open Scope Z_scope.

(** ** Values *)

(** Modelled from the spec: the enum [composer.profiler.profiler_action.ProfilerAction],
    imported by the source but declared in a module that is not part of it;
    the spec gives it as the closed enum SKIP | WARMUP | ACTIVE with no payload. *)
Inductive ProfilerAction : Set := SKIP | WARMUP | ACTIVE.

#[global] Instance ProfilerAction_eq_dec : EqDecision ProfilerAction.
Proof. solve_decision. Defined.

(** The exceptions the module can raise.  [UserException] stands for whatever
    a profiled function raises on its own; [InvalidReference] is the model's
    answer to a dangling address, which no Python reference can be. *)
Inductive exn : Set :=
| ZeroDivisionError
| RuntimeError (msg : string)
| KeyError (key : string)
| UserException (tag : string)
| InvalidReference.

#[global] Instance exn_eq_dec : EqDecision exn.
Proof. solve_decision. Defined.

Inductive result (A : Type) : Type :=
| Ok (a : A)
| Raise (e : exn).
Arguments Ok {A} a.
Arguments Raise {A} e.

(** [a % b] on Python integers. *)
Definition py_mod (a b : Z) : result Z :=
  if b =? 0 then Raise ZeroDivisionError else Ok (a `mod` b).

(** [x in xs] on a sequence of enum members. *)
Definition py_in (x : ProfilerAction) (xs : list ProfilerAction) : bool :=
  bool_decide (x ∈ xs).

(** A counter value is an [int] or a [float]; a float is kept as its bits. *)
Inductive Number : Set :=
| IntValue (z : Z)
| FloatValue (bits : Z).

(** The values a profiled function takes and returns. *)
Inductive Value : Set :=
| PyNone
| PyInt (z : Z)
| PyStr (s : string).

#[global] Instance Value_eq_dec : EqDecision Value.
Proof. solve_decision. Defined.

(** Truth value testing, as [if not exit(...)] does it. *)
Definition truthy (v : Value) : bool :=
  match v with
  | PyNone => false
  | PyInt z => negb (z =? 0)
  | PyStr s => negb (bool_decide (s = ""))
  end.

(** The host's logical time, [state.timer.get_timestamp()]. *)
Record Timestamp : Set := mkTimestamp {
  ts_epoch : Z;
  ts_batch : Z;
  ts_batch_in_epoch : Z
}.

(** ** Event handlers

    A handler is an external sink.  What the profiler does to it is call one
    of its three [process_*] methods; the world keeps those calls in order. *)
Inductive Handler : Set :=
| JSONTraceHandler          (* the handler built by [JSONTraceHandler()] *)
| CustomHandler (id : nat). (* a handler handed in by the caller *)

#[global] Instance Handler_eq_dec : EqDecision Handler.
Proof. solve_decision. Defined.

Inductive Event : Type :=
| process_duration_event
    (name : string) (categories : list string) (timestamp : Timestamp)
    (is_start : bool) (wall_clock_time_ns global_rank pid : Z)
| process_instant_event
    (name : string) (categories : list string) (timestamp : Timestamp)
    (wall_clock_time_ns global_rank pid : Z)
| process_counter_event
    (name : string) (categories : list string)
    (wall_clock_time_ns global_rank pid : Z) (values : list (string * Number)).

(** ** Objects *)

(** An address in the heap of marker objects. *)
Abbreviation loc := nat.

Record Marker : Type := mkMarker {
  name : string;
  actions : list ProfilerAction;
  categories : list string;
  record_instant_on_start : bool;
  record_instant_on_finish : bool;
  _started : bool;
  _action_at_start : option ProfilerAction
}.

Record Profiler : Type := mkProfiler {
  _names_to_markers : gmap string loc;
  _event_handlers : list Handler;
  skip_first : Z;
  wait : Z;
  warmup : Z;
  active : Z;
  repeat : Z;
  merged_trace_file : string;
  _action : ProfilerAction
}.

(** What the methods read from outside the module: [state.timer], [time],
    [dist] and [os].  The host changes these between calls. *)
Record Host : Set := mkHost {
  batch_in_epoch : Z;
  time_ns : Z;
  get_timestamp : Timestamp;
  get_global_rank : Z;
  getpid : Z
}.

Record World : Type := mkWorld {
  host : Host;
  heap : list Marker;
  profiler : Profiler;
  calls : list (Handler * Event)
}.

(** ** The sampling state machine *)

Definition get_action (self : Profiler) (batch_idx : Z) : result ProfilerAction :=
  let cycle_len := wait self + warmup self + active self in
  if negb (repeat self =? 0) && (batch_idx >=? cycle_len * repeat self) then
    Ok SKIP
  else
    match py_mod batch_idx cycle_len with
    | Raise e => Raise e
    | Ok position_in_cycle =>
        if position_in_cycle <? wait self then Ok SKIP
        else if position_in_cycle <? wait self + warmup self then Ok WARMUP
        else Ok ACTIVE
    end.

(** ** The monad of methods: state and exceptions

    A raised exception keeps the world as it was when it was raised. *)

Definition M (A : Type) : Type := World → result A * World.

#[global] Instance M_ret : MRet M := λ A (a : A) w, (Ok a, w).

#[global] Instance M_bind : MBind M := λ A B (k : A → M B) (m : M A) w,
  match m w with
  | (Ok a, w') => k a w'
  | (Raise e, w') => (Raise e, w')
  end.

Definition raise {A : Type} (e : exn) : M A := λ w, (Raise e, w).

Definition lift {A : Type} (r : result A) : M A := λ w, (r, w).

Definition gets {A : Type} (f : World → A) : M A := λ w, (Ok (f w), w).

Definition modify (f : World → World) : M unit := λ w, (Ok tt, f w).

(** [for x in xs: body(x)] *)
Fixpoint for_each {A : Type} (xs : list A) (body : A → M unit) : M unit :=
  match xs with
  | [] => mret tt
  | x :: xs' => body x ;; for_each xs' body
  end.

(** [self.profiler.get_action(batch_idx)], called from a method. *)
Definition call_get_action (batch_idx : Z) : M ProfilerAction :=
  p ← gets profiler;
  lift (get_action p batch_idx).

(** ** The heap of markers and attribute access *)

Definition with_categories (c : list string) (m : Marker) : Marker :=
  mkMarker (name m) (actions m) c (record_instant_on_start m)
    (record_instant_on_finish m) (_started m) (_action_at_start m).

Definition with_started (b : bool) (m : Marker) : Marker :=
  mkMarker (name m) (actions m) (categories m) (record_instant_on_start m)
    (record_instant_on_finish m) b (_action_at_start m).

Definition with_action_at_start (a : option ProfilerAction) (m : Marker) : Marker :=
  mkMarker (name m) (actions m) (categories m) (record_instant_on_start m)
    (record_instant_on_finish m) (_started m) a.

Definition with_names_to_markers (r : gmap string loc) (p : Profiler) : Profiler :=
  mkProfiler r (_event_handlers p) (skip_first p) (wait p) (warmup p) (active p)
    (repeat p) (merged_trace_file p) (_action p).

Definition set_heap (h : list Marker) (w : World) : World :=
  mkWorld (host w) h (profiler w) (calls w).

Definition set_profiler (p : Profiler) (w : World) : World :=
  mkWorld (host w) (heap w) p (calls w).

Definition set_host (h : Host) (w : World) : World :=
  mkWorld h (heap w) (profiler w) (calls w).

Definition add_call (h : Handler) (ev : Event) (w : World) : World :=
  mkWorld (host w) (heap w) (profiler w) (calls w ++ [(h, ev)]).

(** Reading an attribute of the object at [l]. *)
Definition getattr {A : Type} (l : loc) (field : Marker → A) : M A := λ w,
  match heap w !! l with
  | Some m => (Ok (field m), w)
  | None => (Raise InvalidReference, w)
  end.

(** Assigning to one attribute of the object at [l]. *)
Definition setattr (l : loc) (update : Marker → Marker) : M unit := λ w,
  match heap w !! l with
  | Some m => (Ok tt, set_heap (<[l := update m]> (heap w)) w)
  | None => (Raise InvalidReference, w)
  end.

(** A handler's method is called: the call is recorded. *)
Definition call_handler (h : Handler) (ev : Event) : M unit :=
  modify (add_call h ev).

(** ** Profiler: event fan-out *)

Definition record_duration_event (marker : loc) (is_start : bool)
    (wall_clock_time_ns global_rank pid : Z) (timestamp : Timestamp) : M unit :=
  handlers ← gets (λ w, _event_handlers (profiler w));
  for_each handlers (λ handler,
    n ← getattr marker name;
    c ← getattr marker categories;
    call_handler handler
      (process_duration_event n c timestamp is_start wall_clock_time_ns global_rank pid)).

Definition record_instant_event (marker : loc)
    (wall_clock_time_ns global_rank pid : Z) (timestamp : Timestamp) : M unit :=
  handlers ← gets (λ w, _event_handlers (profiler w));
  for_each handlers (λ handler,
    n ← getattr marker name;
    c ← getattr marker categories;
    call_handler handler
      (process_instant_event n c timestamp wall_clock_time_ns global_rank pid)).

Definition record_counter_event (marker : loc)
    (wall_clock_time_ns global_rank pid : Z) (values : list (string * Number)) : M unit :=
  handlers ← gets (λ w, _event_handlers (profiler w));
  for_each handlers (λ handler,
    n ← getattr marker name;
    c ← getattr marker categories;
    call_handler handler
      (process_counter_event n c wall_clock_time_ns global_rank pid values)).

(** ** Marker *)

(** [self._action_at_start in self.actions]; [None] is no member of a
    sequence of actions. *)
Definition action_in (a : option ProfilerAction) (xs : list ProfilerAction) : bool :=
  match a with
  | Some x => py_in x xs
  | None => false
  end.

Definition already_started_msg (n : string) : string :=
  "Attempted to start profiler event " +:+ n +:+
  "; however, this marker is already started".

Definition not_started_msg (n : string) : string :=
  "Attempted to finish profiler event " +:+ n +:+
  "; however, this profiler event is not yet started".

(** The f-string of [Marker.__init__], with the class names [Marker] and
    [Profiler] filled in. *)
Definition instantiated_directly_msg : string :=
  "Marker should not be instantiated directly. Instead, use Profiler.marker(name)".

(** [Marker(profiler, name, ...)]: a fresh object, then [__init__] on it.
    The object under construction is reachable through [self] alone, so it
    enters the heap when [__init__] returns and is lost when it raises. *)
Definition Marker_init (n : string) (acts : list ProfilerAction)
    (on_start on_finish : bool) (cats : list string) : M loc :=
  self ← gets (λ w, length (heap w));
  registry ← gets (λ w, _names_to_markers (profiler w));
  match registry !! n with
  | Some other =>
      if bool_decide (other ≠ self)
      then raise (RuntimeError instantiated_directly_msg)
      else mret tt
  | None => mret tt
  end ;;
  modify (λ w, set_heap (heap w ++ [mkMarker n acts cats on_start on_finish false None]) w) ;;
  mret self.

Definition start (self : loc) : M unit :=
  started ← getattr self _started;
  (if started : bool
   then n ← getattr self name; raise (RuntimeError (already_started_msg n))
   else mret tt) ;;
  batch_idx ← gets (λ w, batch_in_epoch (host w));
  a ← call_get_action batch_idx;
  setattr self (with_action_at_start (Some a)) ;;
  frozen ← getattr self _action_at_start;
  acts ← getattr self actions;
  (if action_in frozen acts
   then
     wall_clock_time ← gets (λ w, time_ns (host w));
     ts ← gets (λ w, get_timestamp (host w));
     rank ← gets (λ w, get_global_rank (host w));
     pid ← gets (λ w, getpid (host w));
     record_duration_event self true wall_clock_time rank pid ts ;;
     on_start ← getattr self record_instant_on_start;
     if on_start : bool
     then
       ts ← gets (λ w, get_timestamp (host w));
       rank ← gets (λ w, get_global_rank (host w));
       pid ← gets (λ w, getpid (host w));
       record_instant_event self wall_clock_time rank pid ts
     else mret tt
   else mret tt) ;;
  setattr self (with_started true).

Definition finish (self : loc) : M unit :=
  started ← getattr self _started;
  (if started : bool
   then mret tt
   else n ← getattr self name; raise (RuntimeError (not_started_msg n))) ;;
  frozen ← getattr self _action_at_start;
  acts ← getattr self actions;
  (if action_in frozen acts
   then
     wall_clock_time ← gets (λ w, time_ns (host w));
     ts ← gets (λ w, get_timestamp (host w));
     rank ← gets (λ w, get_global_rank (host w));
     pid ← gets (λ w, getpid (host w));
     record_duration_event self false wall_clock_time rank pid ts ;;
     on_finish ← getattr self record_instant_on_finish;
     if on_finish : bool
     then
       ts ← gets (λ w, get_timestamp (host w));
       rank ← gets (λ w, get_global_rank (host w));
       pid ← gets (λ w, getpid (host w));
       record_instant_event self wall_clock_time rank pid ts
     else mret tt
   else mret tt) ;;
  setattr self (with_started false).

Definition instant (self : loc) : M unit :=
  batch_idx ← gets (λ w, batch_in_epoch (host w));
  a ← call_get_action batch_idx;
  acts ← getattr self actions;
  if py_in a acts
  then
    wall_clock_time ← gets (λ w, time_ns (host w));
    ts ← gets (λ w, get_timestamp (host w));
    rank ← gets (λ w, get_global_rank (host w));
    pid ← gets (λ w, getpid (host w));
    record_instant_event self wall_clock_time rank pid ts
  else mret tt.

Definition counter (self : loc) (values : list (string * Number)) : M unit :=
  batch_idx ← gets (λ w, batch_in_epoch (host w));
  a ← call_get_action batch_idx;
  acts ← getattr self actions;
  if py_in a acts
  then
    wall_clock_time ← gets (λ w, time_ns (host w));
    rank ← gets (λ w, get_global_rank (host w));
    pid ← gets (λ w, getpid (host w));
    record_counter_event self wall_clock_time rank pid values
  else mret tt.

(** ** Profiler: construction and the marker registry *)

Fixpoint endswith_sep (s : string) : bool :=
  match s with
  | EmptyString => false
  | String c EmptyString => bool_decide (c = "/"%char)
  | String _ rest => endswith_sep rest
  end.

(** [os.path.join(a, b)] of [posixpath]. *)
Definition os_path_join (a b : string) : string :=
  if String.prefix "/" b then b
  else if bool_decide (a = "") || endswith_sep a then a +:+ b
  else a +:+ "/" +:+ b.

(** [Profiler.__init__].  [run_directory] is what
    [run_directory.get_run_directory()] answers; the [state] argument is the
    [host] of the world the profiler is put in. *)
Definition Profiler_init (run_directory : string) (event_handlers : list Handler)
    (skip_first wait warmup active repeat : Z) (merged_trace_file : string) : Profiler :=
  mkProfiler
    ∅
    (match event_handlers with [] => [JSONTraceHandler] | _ => event_handlers end)
    skip_first wait warmup active repeat
    (os_path_join run_directory merged_trace_file)
    SKIP.

(** The constructor with every optional argument left out. *)
Definition Profiler_default (run_directory : string) : Profiler :=
  Profiler_init run_directory [] 0 0 1 4 1 "merged_profiler_trace.json".

(** A run begins: no marker yet, nothing recorded. *)
Definition new_world (h : Host) (p : Profiler) : World := mkWorld h [] p [].

(** [self._names_to_markers[name]] *)
Definition subscript (n : string) : M loc :=
  registry ← gets (λ w, _names_to_markers (profiler w));
  match registry !! n with
  | Some l => mret l
  | None => raise (KeyError n)
  end.

Definition marker (n : string) (acts : list ProfilerAction)
    (on_start on_finish : bool) (cats : list string) : M loc :=
  registry ← gets (λ w, _names_to_markers (profiler w));
  match registry !! n with
  | None =>
      l ← Marker_init n acts on_start on_finish cats;
      modify (λ w, set_profiler
        (with_names_to_markers (<[n := l]> (_names_to_markers (profiler w))) (profiler w)) w)
  | Some _ => mret tt
  end ;;
  l ← subscript n;
  setattr l (with_categories cats) ;;
  subscript n.

(** [profiler.marker(name)] with the default arguments. *)
Definition marker_default (n : string) : M loc :=
  marker n [WARMUP; ACTIVE] false false [].

(** ** Marker as a context manager and as a decorator *)

Definition PyFunc : Type := list Value → list (string * Value) → M Value.

(** Runs [m] and hands its outcome over as a value ([try]). *)
Definition attempt {A : Type} (m : M A) : M (result A) := λ w,
  let (r, w') := m w in (Ok r, w').

Definition Marker_enter (self : loc) : M loc :=
  start self ;; mret self.

Definition Marker_exit (self : loc) (exc : option exn) : M Value :=
  finish self ;; mret PyNone.

(** [with mgr: body] *)
Definition with_statement (mgr : loc) (body : M unit) : M unit :=
  Marker_enter mgr ;;
  r ← attempt body;
  match r with
  | Ok _ => Marker_exit mgr None ;; mret tt
  | Raise e =>
      suppress ← Marker_exit mgr (Some e);
      if truthy suppress then mret tt else raise e
  end.

(** The inner function [wrapped] of [Marker.__call__]. *)
Definition wrapped (self : loc) (func : PyFunc) : PyFunc := λ args kwargs,
  with_statement self (func args kwargs ;; mret tt) ;;
  mret PyNone.

Inductive Callable : Type :=
| TheMarker (l : loc)
| TheFunction (f : PyFunc).

Definition Marker_call (self : loc) (func : option PyFunc) : Callable :=
  match func with
  | None => TheMarker self
  | Some f => TheFunction (wrapped self f)
  end.

(** What the spec compares the decorator with: the function's body between
    [start()] and [finish()], written out by hand. *)
Definition bracketed (self : loc) (func : PyFunc) : PyFunc := λ args kwargs,
  start self ;;
  r ← func args kwargs;
  finish self ;;
  mret r.

(** The same with the [try]/[finally] that scoped use stands for:
    [finish()] runs on every way out of the body. *)
Definition bracketed_finally (self : loc) (func : PyFunc) : PyFunc := λ args kwargs,
  start self ;;
  r ← attempt (func args kwargs);
  finish self ;;
  lift r.

(** ** Notions used to state the properties *)

Definition cycle_len (p : Profiler) : Z := wait p + warmup p + active p.

(** Steps 4 to 6 of the spec's algorithm, on a position in the cycle. *)
Definition phase (p : Profiler) (pos : Z) : ProfilerAction :=
  if pos <? wait p then SKIP
  else if pos <? wait p + warmup p then WARMUP
  else ACTIVE.

(** The spec's algorithm for a positive cycle length, step by step. *)
Definition get_action_spec (p : Profiler) (batch_idx : Z) : ProfilerAction :=
  if bool_decide (repeat p ≠ 0 ∧ batch_idx >= cycle_len p * repeat p) then SKIP
  else phase p (batch_idx `mod` cycle_len p).

Definition with_skip_first (s : Z) (p : Profiler) : Profiler :=
  mkProfiler (_names_to_markers p) (_event_handlers p) s (wait p) (warmup p)
    (active p) (repeat p) (merged_trace_file p) (_action p).

(** One event reaches every handler, in registration order. *)
Definition fan_out (w : World) (ev : Event) : list (Handler * Event) :=
  map (λ handler, (handler, ev)) (_event_handlers (profiler w)).

Definition add_calls (evs : list (Handler * Event)) (w : World) : World :=
  mkWorld (host w) (heap w) (profiler w) (calls w ++ evs).

(** The events a marker gives rise to, with the host's readings of the moment. *)
Definition duration_of (w : World) (m : Marker) (is_start : bool) : Event :=
  process_duration_event (name m) (categories m) (get_timestamp (host w)) is_start
    (time_ns (host w)) (get_global_rank (host w)) (getpid (host w)).

Definition instant_of (w : World) (m : Marker) : Event :=
  process_instant_event (name m) (categories m) (get_timestamp (host w))
    (time_ns (host w)) (get_global_rank (host w)) (getpid (host w)).

Definition counter_of (w : World) (m : Marker) (values : list (string * Number)) : Event :=
  process_counter_event (name m) (categories m)
    (time_ns (host w)) (get_global_rank (host w)) (getpid (host w)) values.

(** The calls made by a [start()] whose action is [a], and by a [finish()]
    whose frozen action is [a]. *)
Definition start_calls (w : World) (m : Marker) (a : option ProfilerAction)
  : list (Handler * Event) :=
  if action_in a (actions m) then
    fan_out w (duration_of w m true) ++
    (if record_instant_on_start m then fan_out w (instant_of w m) else [])
  else [].

Definition finish_calls (w : World) (m : Marker) (a : option ProfilerAction)
  : list (Handler * Event) :=
  if action_in a (actions m) then
    fan_out w (duration_of w m false) ++
    (if record_instant_on_finish m then fan_out w (instant_of w m) else [])
  else [].

(** The marker at [l] with its object in the heap. *)
Definition marker_at (w : World) (l : loc) (m : Marker) : Prop :=
  heap w !! l = Some m.

(** [n] is registered, for the marker object at [l]. *)
Definition registered (w : World) (n : string) (l : loc) : Prop :=
  _names_to_markers (profiler w) !! n = Some l.

(** Every registered name refers to a marker object of that name. *)
Definition registry_ok (w : World) : Prop :=
  ∀ n l, registered w n l → ∃ m, marker_at w l m ∧ name m = n.

(** The calls [w'] has on top of those of [w]. *)
Definition new_calls (w w' : World) : list (Handler * Event) :=
  drop (length (calls w)) (calls w').

(** The world a successful [start()] leaves, when the action of the moment
    is [a], and the world a successful [finish()] leaves. *)
Definition after_start (w : World) (l : loc) (m : Marker) (a : ProfilerAction) : World :=
  mkWorld (host w)
    (<[l := with_started true (with_action_at_start (Some a) m)]> (heap w))
    (profiler w)
    (calls w ++ start_calls w m (Some a)).

Definition after_finish (w : World) (l : loc) (m : Marker) : World :=
  mkWorld (host w)
    (<[l := with_started false m]> (heap w))
    (profiler w)
    (calls w ++ finish_calls w m (_action_at_start m)).

(** The action of the moment, as [start()], [instant()] and [counter()] ask for it. *)
Definition current_action (w : World) : result ProfilerAction :=
  get_action (profiler w) (batch_in_epoch (host w)).

(** The calls made by [instant()] and by [counter(values)] when the action
    of the moment is [a]. *)
Definition instant_calls (w : World) (m : Marker) (a : ProfilerAction)
  : list (Handler * Event) :=
  if py_in a (actions m) then fan_out w (instant_of w m) else [].

Definition counter_calls (w : World) (m : Marker) (a : ProfilerAction)
    (values : list (string * Number)) : list (Handler * Event) :=
  if py_in a (actions m) then fan_out w (counter_of w m values) else [].

(** The object [Marker.__init__] leaves behind. *)
Definition new_marker (n : string) (acts : list ProfilerAction)
    (on_start on_finish : bool) (cats : list string) : Marker :=
  mkMarker n acts cats on_start on_finish false None.

(** The world after [Profiler.marker] has created and registered a marker. *)
Definition after_create (w : World) (n : string) (m : Marker) : World :=
  mkWorld (host w)
    (heap w ++ [m])
    (with_names_to_markers (<[n := length (heap w)]> (_names_to_markers (profiler w)))
       (profiler w))
    (calls w).

(** ** Runs of the interface

    What a caller can do with a profiler and its markers, one call at a time.
    A call that raises leaves the world as it was when it raised, and the
    caller goes on from there. *)
Inductive Op : Type :=
| op_marker (n : string) (acts : list ProfilerAction) (on_start on_finish : bool)
    (cats : list string)                      (* [profiler.marker(n, ...)] *)
| op_Marker (n : string) (acts : list ProfilerAction) (on_start on_finish : bool)
    (cats : list string)                      (* [Marker(profiler, n, ...)] *)
| op_start (l : loc)
| op_finish (l : loc)
| op_instant (l : loc)
| op_counter (l : loc) (values : list (string * Number))
| op_host (h : Host).                         (* the host loop moves on *)

Definition run_op (o : Op) : M unit :=
  match o with
  | op_marker n acts on_start on_finish cats =>
      marker n acts on_start on_finish cats ;; mret tt
  | op_Marker n acts on_start on_finish cats =>
      Marker_init n acts on_start on_finish cats ;; mret tt
  | op_start l => start l
  | op_finish l => finish l
  | op_instant l => instant l
  | op_counter l values => counter l values
  | op_host h => modify (set_host h)
  end.

Fixpoint run (ops : list Op) (w : World) : World :=
  match ops with
  | [] => w
  | o :: ops' => run ops' (run_op o w).2
  end.

(** [o] neither starts nor finishes the marker at [l]. *)
Definition leaves_pair (l : loc) (o : Op) : Prop :=
  o ≠ op_start l ∧ o ≠ op_finish l.

(** ** Sample data *)

Definition host_at (batch : Z) : Host :=
  mkHost batch (1000 + batch) (mkTimestamp 0 batch batch) 0 4242.

(** A default profiler at batch [batch] with the marker ["fwd"] registered
    at address 0. *)
Definition sample_world (batch : Z) : World :=
  (marker_default "fwd" (new_world (host_at batch) (Profiler_default "run"))).2.

(** A profiled function that does nothing but return 42. *)
Definition answer : PyFunc := λ _ _, mret (PyInt 42).

(** What is left of an outcome when a returned value is thrown away. *)
Definition drop_value (r : result Value) : result Value :=
  match r with
  | Ok _ => Ok PyNone
  | Raise e => Raise e
  end.

(** ** Further notions: the sampling schedule *)

#[global] Instance result_eq_dec {A : Type} `{EqDecision A} : EqDecision (result A).
Proof. solve_decision. Defined.

(** The batches among [0 .. n-1] of an epoch for which [get_action] answers [a]. *)
Definition batches_with (p : Profiler) (a : ProfilerAction) (n : Z) : list Z :=
  filter (λ batch_idx, get_action p batch_idx = Ok a) (seqZ 0 n).

(** ** Further notions: the trace of a run *)

(** The call [c] tells handler [h] that a duration named [n] starts
    ([is_start]) or ends. *)
Definition is_duration_call (h : Handler) (n : string) (is_start : bool)
    (c : Handler * Event) : bool :=
  match c with
  | (h', process_duration_event n' _ _ is_start' _ _ _) =>
      bool_decide (h' = h) && bool_decide (n' = n) && bool_decide (is_start' = is_start)
  | _ => false
  end.

(** How many such calls a trace holds. *)
Definition duration_calls (h : Handler) (n : string) (is_start : bool)
    (cs : list (Handler * Event)) : nat :=
  length (filter (λ c, is_duration_call h n is_start c = true) cs).

(** The marker is started and its stored action is one it records on:
    a duration of it is open at the handlers. *)
Definition recording (m : Marker) : bool :=
  _started m && action_in (_action_at_start m) (actions m).

(** How many markers named [n] have a duration open. *)
Definition open_markers (n : string) (h : list Marker) : nat :=
  length (filter (λ m, name m = n ∧ recording m = true) h).

(** How many times [h] is in the handler list. *)
Definition registrations (h : Handler) (hs : list Handler) : nat :=
  length (filter (λ h', h' = h) hs).

Definition one_if (b : bool) : nat := if b then 1%nat else 0%nat.

(** Every handler has been told of as many starts as ends of the durations
    named [n], apart from those that are open: one per marker of that name
    that is recording, for each time the handler is registered. *)
Definition balanced (w : World) : Prop :=
  ∀ h n,
    duration_calls h n true (calls w)
    = (duration_calls h n false (calls w)
       + registrations h (_event_handlers (profiler w)) * open_markers n (heap w))%nat.

(** ** Further notions: what one call can do to the world *)

(** The three ways a method writes to a marker object. *)
Inductive updated (m : Marker) : Marker → Prop :=
| updated_categories cats : updated m (with_categories cats m)
| updated_start a : updated m (with_started true (with_action_at_start (Some a) m))
| updated_finish : updated m (with_started false m).

Inductive step_shape (w : World) : World → Prop :=
| shape_same : step_shape w w
| shape_host h : step_shape w (set_host h w)
| shape_calls evs : step_shape w (add_calls evs w)
| shape_update l m m' evs :
    marker_at w l m → updated m m' →
    step_shape w (mkWorld (host w) (<[l := m']> (heap w)) (profiler w) (calls w ++ evs))
| shape_alloc m r :
    _started m = false → _names_to_markers (profiler w) ⊆ r →
    step_shape w
      (mkWorld (host w) (heap w ++ [m]) (with_names_to_markers r (profiler w)) (calls w)).

(** The fields of a marker that are given at construction. *)
Definition same_construction (m m' : Marker) : Prop :=
  name m' = name m ∧ actions m' = actions m ∧
  record_instant_on_start m' = record_instant_on_start m ∧
  record_instant_on_finish m' = record_instant_on_finish m.

(** ** Profiler: merging the traces

    [merge_traces] talks to the distributed runtime, the log, the file
    system and the trace merger.  The calls it makes are kept in order; what
    [dist.get_local_rank()], [self.state.callbacks] and [os.walk] answer are
    arguments. *)

(** The callbacks of the run, by the two classes [merge_traces] looks for. *)
Inductive Callback : Type :=
| JSONTraceHandlerCallback (output_directory : string)
| TorchProfilerCallback (tensorboard_trace_handler_dir : string)
| OtherCallback (id : nat).

Inductive SysCall : Type :=
| dist_barrier
| log_info (msg : string)
| json_trace_merger_merge_traces (output_file : string) (trace_files : list string).

(** One triple [(rootdir, dirnames, filenames)] of [os.walk]. *)
Definition WalkEntry : Type := string * list string * list string.

(** [s.endswith(suffix)] *)
Fixpoint endswith (s suffix : string) : bool :=
  if String.eqb s suffix then true
  else match s with
       | EmptyString => false
       | String _ rest => endswith rest suffix
       end.

(** The first loop of [merge_traces]. *)
Definition trace_folders_of (callbacks : list Callback) : list string :=
  fold_left (λ (trace_folders : list string) (callback : Callback),
      let trace_folders :=
        match callback with
        | JSONTraceHandlerCallback output_directory =>
            (trace_folders ++ [output_directory])%list
        | _ => trace_folders
        end in
      match callback with
      | TorchProfilerCallback dir => (trace_folders ++ [dir])%list
      | _ => trace_folders
      end)
    callbacks [].

(** The second, nested loop. *)
Definition trace_files_of (walk : string → list WalkEntry) (trace_folders : list string)
  : list string :=
  fold_left (λ (trace_files : list string) (trace_folder : string),
      fold_left (λ (trace_files : list string) (entry : WalkEntry),
          let '(rootdir, _, filenames) := entry in
          fold_left (λ (trace_files : list string) (filename : string),
              let filepath := os_path_join rootdir filename in
              if endswith filepath ".json" then (trace_files ++ [filepath])%list
              else trace_files)
            filenames trace_files)
        (walk trace_folder) trace_files)
    trace_folders [].

Definition merge_traces (local_rank : Z) (callbacks : list Callback)
    (walk : string → list WalkEntry) (self : Profiler) : list SysCall :=
  ([dist_barrier] ++
   if negb (local_rank =? 0) then []
   else
     [log_info "Merging profiling trace files together";
      json_trace_merger_merge_traces (merged_trace_file self)
        (trace_files_of walk (trace_folders_of callbacks))])%list.

(** The directory a callback writes traces to, when it is of one of the two
    classes. *)
Definition trace_folder (callback : Callback) : list string :=
  match callback with
  | JSONTraceHandlerCallback output_directory => [output_directory]
  | TorchProfilerCallback dir => [dir]
  | OtherCallback _ => []
  end.

(** The paths of the files [os.walk] finds under a folder. *)
Definition walked_paths (walk : string → list WalkEntry) (folder : string) : list string :=
  entry ← walk folder;
  (λ filename, os_path_join entry.1.1 filename) <$> entry.2.

(** ** datasets.mnist: decoding a streamed image

    [StreamingMNIST.decode_image] leans on [numpy] and [PIL]; the three
    calls it makes are modelled by what they do to a buffer of bytes. *)

(** A call that returns or raises [ValueError]. *)
Inductive checked (A : Type) : Type :=
| Returns (a : A)
| RaisesValueError (msg : string).
Arguments Returns {A} a.
Arguments RaisesValueError {A} msg.

(** [np.frombuffer(data, np.uint8)]: one element per byte. *)
Definition np_frombuffer_uint8 (data : list byte) : list Z :=
  (λ b, Z.of_N (Byte.to_N b)) <$> data.

(** The rows of a row-major two-dimensional view. *)
Fixpoint rows_of {A : Type} (rows cols : nat) (arr : list A) : list (list A) :=
  match rows with
  | O => []
  | S rows' => take cols arr :: rows_of rows' cols (drop cols arr)
  end.

(** [arr.reshape(rows, cols)] on a one-dimensional array. *)
Definition reshape {A : Type} (rows cols : nat) (arr : list A) : checked (list (list A)) :=
  if decide (length arr = (rows * cols)%nat) then Returns (rows_of rows cols arr)
  else RaisesValueError
         ("cannot reshape array of size " +:+ pretty (length arr) +:+
          " into shape (" +:+ pretty rows +:+ "," +:+ pretty cols +:+ ")").

(** A greyscale [PIL] image. *)
Record Image : Type := mkImage {
  mode : string;
  width : nat;
  height : nat;
  pixels : list (list Z)
}.

(** [Image.fromarray(arr)] on a two-dimensional [uint8] array. *)
Definition Image_fromarray (arr : list (list Z)) : Image :=
  mkImage "L" (length (default [] (head arr))) (length arr) arr.

(** [img.getpixel((x, y))] *)
Definition getpixel (img : Image) (x y : nat) : option Z :=
  row ← pixels img !! y; row !! x.

Definition decode_image (data : list byte) : checked Image :=
  let arr := np_frombuffer_uint8 data in
  match reshape 28 28 arr with
  | Returns arr => Returns (Image_fromarray arr)
  | RaisesValueError msg => RaisesValueError msg
  end.

(** ** optim.optimizer_hparams_registry

    The hyperparameter classes of the module, the optimizer class each one
    names in [optimizer_cls], and the registry.  A hyperparameter value is
    of a type [V] (floats, booleans and lists of floats in the source), the
    parameters to optimize of a type [P]. *)

Inductive OptimizerClass : Set :=
| torch_optim_Adam
| torch_optimizer_RAdam
| torch_optim_AdamW
| composer_optim_DecoupledAdamW
| torch_optim_SGD
| composer_optim_DecoupledSGDW
| torch_optim_RMSprop
| timm_optim_Lars.

#[global] Instance OptimizerClass_eq_dec : EqDecision OptimizerClass.
Proof. solve_decision. Defined.

Inductive HparamsClass : Set :=
| OptimizerHparams
| AdamHparams
| RAdamHparams
| AdamWHparams
| DecoupledAdamWHparams
| SGDHparams
| DecoupledSGDWHparams
| RMSpropHparams
| LarsHparams.

#[global] Instance HparamsClass_eq_dec : EqDecision HparamsClass.
Proof. solve_decision. Defined.

(** [type(self).__name__] *)
Definition class_name (c : HparamsClass) : string :=
  match c with
  | OptimizerHparams => "OptimizerHparams"
  | AdamHparams => "AdamHparams"
  | RAdamHparams => "RAdamHparams"
  | AdamWHparams => "AdamWHparams"
  | DecoupledAdamWHparams => "DecoupledAdamWHparams"
  | SGDHparams => "SGDHparams"
  | DecoupledSGDWHparams => "DecoupledSGDWHparams"
  | RMSpropHparams => "RMSpropHparams"
  | LarsHparams => "LarsHparams"
  end.

(** The class attribute [optimizer_cls]: [None] in the base class, set anew
    in each subclass. *)
Definition optimizer_cls (c : HparamsClass) : option OptimizerClass :=
  match c with
  | OptimizerHparams => None
  | AdamHparams => Some torch_optim_Adam
  | RAdamHparams => Some torch_optimizer_RAdam
  | AdamWHparams => Some torch_optim_AdamW
  | DecoupledAdamWHparams => Some composer_optim_DecoupledAdamW
  | SGDHparams => Some torch_optim_SGD
  | DecoupledSGDWHparams => Some composer_optim_DecoupledSGDW
  | RMSpropHparams => Some torch_optim_RMSprop
  | LarsHparams => Some timm_optim_Lars
  end.

(** The dataclass fields, in the order they are declared. *)
Definition dataclass_fields (c : HparamsClass) : list string :=
  match c with
  | OptimizerHparams => []
  | AdamHparams | AdamWHparams | DecoupledAdamWHparams =>
      ["lr"; "betas"; "eps"; "weight_decay"; "amsgrad"]
  | RAdamHparams => ["lr"; "betas"; "eps"; "weight_decay"]
  | SGDHparams | DecoupledSGDWHparams =>
      ["lr"; "momentum"; "weight_decay"; "dampening"; "nesterov"]
  | RMSpropHparams => ["lr"; "alpha"; "eps"; "momentum"; "weight_decay"; "centered"]
  | LarsHparams =>
      ["lr"; "momentum"; "weight_decay"; "dampening"; "nesterov"; "trust_coeff";
       "eps"; "trust_clip"; "always_adapt"]
  end.

(** An instance: its class and the values of its fields, in order. *)
Record Hparams (V : Type) : Type := mkHparams {
  hparams_class : HparamsClass;
  hparams_values : list V
}.
Arguments mkHparams {V} _ _.
Arguments hparams_class {V} _.
Arguments hparams_values {V} _.

(** An instance has one value per field of its class. *)
Definition well_formed {V : Type} (self : Hparams V) : Prop :=
  length (hparams_values self) = length (dataclass_fields (hparams_class self)).

(** [dataclasses.asdict(self)] *)
Definition asdict {V : Type} (self : Hparams V) : list (string * V) :=
  zip (dataclass_fields (hparams_class self)) (hparams_values self).

(** An optimizer being constructed: [cls(param_group, **kwargs)]. *)
Record OptimizerCall (V P : Type) : Type := mkOptimizerCall {
  call_cls : OptimizerClass;
  call_param_group : P;
  call_kwargs : list (string * V)
}.
Arguments mkOptimizerCall {V P} _ _ _.
Arguments call_cls {V P} _.
Arguments call_param_group {V P} _.
Arguments call_kwargs {V P} _.

Definition initialize_object {V P : Type} (self : Hparams V) (param_group : P)
  : checked (OptimizerCall V P) :=
  match optimizer_cls (hparams_class self) with
  | None =>
      RaisesValueError (class_name (hparams_class self) +:+ ".optimizer_cls must be defined")
  | Some cls => Returns (mkOptimizerCall cls param_group (asdict self))
  end.

Definition optimizer_registry : list (string * HparamsClass) :=
  [("adam", AdamHparams);
   ("adamw", AdamWHparams);
   ("decoupled_adamw", DecoupledAdamWHparams);
   ("radam", RAdamHparams);
   ("sgd", SGDHparams);
   ("decoupled_sgdw", DecoupledSGDWHparams);
   ("rmsprop", RMSpropHparams);
   ("lars", LarsHparams)].

(** [optimizer_registry[key]], when the key is there. *)
Definition registry_get (key : string) : option HparamsClass :=
  (list_to_map optimizer_registry : gmap string HparamsClass) !! key.
(** * Properties *)

(** ** The sampling state machine *)

Lemma get_action_unfold p b :
  get_action p b =
    if negb (repeat p =? 0) && (cycle_len p * repeat p <=? b) then Ok SKIP
    else if cycle_len p =? 0 then Raise ZeroDivisionError
    else Ok (phase p (b `mod` cycle_len p)).
Proof.
  unfold get_action, py_mod, phase, cycle_len. rewrite Z.geb_leb.
  destruct (negb _ && _); [done|].
  destruct (_ =? 0); [done|].
  by repeat case_match.
Qed.

Lemma get_action_positive p b :
  0 < cycle_len p → get_action p b = Ok (get_action_spec p b).
Proof.
  intros Hpos. rewrite get_action_unfold. unfold get_action_spec.
  destruct (Z.eqb_spec (repeat p) 0) as [Hr|Hr];
    destruct (Z.leb_spec (cycle_len p * repeat p) b) as [Hb|Hb]; simpl;
    destruct (Z.eqb_spec (cycle_len p) 0) as [Hc|Hc]; try lia;
    case_bool_decide; try done; try lia; exfalso; naive_solver lia.
Qed.

Lemma get_action_zero_cycle_no_repeat p b :
  cycle_len p = 0 → repeat p = 0 → get_action p b = Raise ZeroDivisionError.
Proof.
  intros Hc Hr. rewrite get_action_unfold, Hc, Hr. done.
Qed.

Lemma get_action_zero_cycle_repeat p b :
  cycle_len p = 0 → repeat p ≠ 0 → 0 <= b → get_action p b = Ok SKIP.
Proof.
  intros Hc Hr Hb. rewrite get_action_unfold, Hc.
  destruct (Z.eqb_spec (repeat p) 0); [done|].
  destruct (Z.leb_spec (0 * repeat p) b); [done|lia].
Qed.

Lemma get_action_same_config p p' b :
  wait p = wait p' → warmup p = warmup p' → active p = active p' →
  repeat p = repeat p' → get_action p b = get_action p' b.
Proof.
  intros Hw Hu Ha Hr. unfold get_action. by rewrite Hw, Hu, Ha, Hr.
Qed.

(** The constructor's defaults: [wait=0, warmup=1, active=4, repeat=1]. *)
Example default_cycle :
  map (get_action (Profiler_default "run")) [0; 1; 2; 3; 4; 5; 6] =
  [Ok WARMUP; Ok ACTIVE; Ok ACTIVE; Ok ACTIVE; Ok ACTIVE; Ok SKIP; Ok SKIP].
Proof. reflexivity. Qed.

(** The same cycle with [repeat=0] goes on for the whole epoch. *)
Example unbounded_cycle :
  map (get_action (Profiler_init "run" [] 0 0 1 4 0 "t.json")) [0; 1; 4; 5; 6; 9; 10] =
  [Ok WARMUP; Ok ACTIVE; Ok ACTIVE; Ok WARMUP; Ok ACTIVE; Ok ACTIVE; Ok WARMUP].
Proof. reflexivity. Qed.

(** An empty cycle: [SKIP] while [repeat] is set, an exception when it is 0. *)
Example empty_cycle :
  get_action (Profiler_init "run" [] 0 0 0 0 1 "t.json") 7 = Ok SKIP ∧
  get_action (Profiler_init "run" [] 0 0 0 0 0 "t.json") 7 = Raise ZeroDivisionError.
Proof. split; reflexivity. Qed.

(** C1 (the code departs from it): with [wait + warmup + active = 0] and
    [repeat = 0], [get_action] does not return SKIP: whatever [batch_idx]
    is, the remainder by the empty cycle raises [ZeroDivisionError]. *)
Theorem get_action_empty_cycle_raises (batch_idx : Z) :
  cycle_len (Profiler_init "run" [] 0 0 0 0 0 "merged_profiler_trace.json") = 0 ∧
  get_action (Profiler_init "run" [] 0 0 0 0 0 "merged_profiler_trace.json") batch_idx
    = Raise ZeroDivisionError.
Proof.
  split; [reflexivity|].
  by apply get_action_zero_cycle_no_repeat.
Qed.

(** C3: for a cycle of positive length, [get_action] returns SKIP once
    [repeat != 0] cycles are used up ([batch_idx >= cycle_len * repeat]);
    otherwise, with [pos = batch_idx mod cycle_len], SKIP when [pos < wait],
    WARMUP when [wait <= pos < wait + warmup], ACTIVE otherwise.  With
    [wait=0, warmup=1, active=4, repeat=1] this gives WARMUP at 0, ACTIVE at
    1 to 4 and SKIP at 5. *)
Theorem get_action_cases (p : Profiler) (batch_idx : Z) :
  0 < cycle_len p →
  (repeat p ≠ 0 → batch_idx >= cycle_len p * repeat p →
     get_action p batch_idx = Ok SKIP) ∧
  (¬ (repeat p ≠ 0 ∧ batch_idx >= cycle_len p * repeat p) →
     let pos := batch_idx `mod` cycle_len p in
     (pos < wait p → get_action p batch_idx = Ok SKIP) ∧
     (wait p <= pos < wait p + warmup p → get_action p batch_idx = Ok WARMUP) ∧
     (¬ pos < wait p → ¬ wait p <= pos < wait p + warmup p →
        get_action p batch_idx = Ok ACTIVE)) ∧
  get_action p batch_idx = Ok (get_action_spec p batch_idx) ∧
  (wait p = 0 → warmup p = 1 → active p = 4 → repeat p = 1 →
     get_action p 0 = Ok WARMUP ∧
     (∀ i, 1 <= i <= 4 → get_action p i = Ok ACTIVE) ∧
     get_action p 5 = Ok SKIP).
Proof.
  intros Hpos. split_and!.
  - intros Hr Hb. rewrite get_action_positive by done.
    unfold get_action_spec. by rewrite bool_decide_eq_true_2.
  - intros Hn pos. rewrite get_action_positive by done.
    unfold get_action_spec. rewrite bool_decide_eq_false_2 by done.
    fold pos. unfold phase. split_and!.
    + intros H. destruct (Z.ltb_spec pos (wait p)); [done|lia].
    + intros H. destruct (Z.ltb_spec pos (wait p)); [lia|].
      destruct (Z.ltb_spec pos (wait p + warmup p)); [done|lia].
    + intros H1 H2. destruct (Z.ltb_spec pos (wait p)); [done|].
      destruct (Z.ltb_spec pos (wait p + warmup p)); [lia|done].
  - by apply get_action_positive.
  - intros Hw Hu Ha Hr.
    assert (Hc : cycle_len p = 5) by (unfold cycle_len; lia).
    split_and!.
    + rewrite get_action_unfold, Hc, Hr. unfold phase. rewrite Hw, Hu. done.
    + intros i Hi. rewrite get_action_unfold, Hc, Hr. unfold phase. rewrite Hw, Hu.
      assert (Hi' : i = 1 ∨ i = 2 ∨ i = 3 ∨ i = 4) by lia.
      destruct Hi' as [->|[->|[->| ->]]]; reflexivity.
    + rewrite get_action_unfold, Hc, Hr. done.
Qed.

Lemma get_action_cases_witness :
  0 < cycle_len (Profiler_default "run") ∧
  get_action (Profiler_default "run") 5 = Ok SKIP.
Proof.
  split; [reflexivity|].
  destruct (get_action_cases (Profiler_default "run") 5) as (_ & _ & _ & H);
    [reflexivity|].
  apply H; reflexivity.
Defined.

(** C4: with [repeat = 0] and a cycle of positive length, [get_action] has
    period [cycle_len]: shifting [batch_idx] by one cycle changes nothing,
    the answer is the phase of [batch_idx mod cycle_len] alone, so SKIP is
    only ever the [wait] part of a cycle; with [wait=0, warmup=1, active=4],
    [get_action(5) = get_action(0) = WARMUP]. *)
Theorem get_action_periodic (p : Profiler) (batch_idx : Z) :
  repeat p = 0 → 0 < cycle_len p →
  get_action p (batch_idx + cycle_len p) = get_action p batch_idx ∧
  get_action p batch_idx = Ok (phase p (batch_idx `mod` cycle_len p)) ∧
  (get_action p batch_idx = Ok SKIP → batch_idx `mod` cycle_len p < wait p) ∧
  (wait p = 0 → warmup p = 1 → active p = 4 →
     get_action p 5 = get_action p 0 ∧ get_action p 5 = Ok WARMUP).
Proof.
  intros Hr Hpos.
  assert (Hphase : ∀ b, get_action p b = Ok (phase p (b `mod` cycle_len p))).
  { intros b. rewrite get_action_unfold, Hr. simpl.
    destruct (Z.eqb_spec (cycle_len p) 0); [lia|done]. }
  split_and!.
  - rewrite !Hphase. do 2 f_equal.
    rewrite <- (Z.mul_1_l (cycle_len p)) at 1.
    apply Z_mod_plus_full.
  - apply Hphase.
  - rewrite Hphase. unfold phase. intros H.
    destruct (Z.ltb_spec (batch_idx `mod` cycle_len p) (wait p)); [done|].
    by destruct (_ <? wait p + warmup p).
  - intros Hw Hu Ha.
    assert (Hc : cycle_len p = 5) by (unfold cycle_len; lia).
    rewrite !Hphase, Hc. unfold phase. rewrite Hw, Hu. by split.
Qed.

Lemma get_action_periodic_witness :
  get_action (Profiler_init "run" [] 0 2 1 4 0 "t.json") (3 + 7) =
  get_action (Profiler_init "run" [] 0 2 1 4 0 "t.json") 3.
Proof.
  apply (get_action_periodic (Profiler_init "run" [] 0 2 1 4 0 "t.json") 3);
    reflexivity.
Defined.

(** C8: [get_action] is a function of [batch_idx] and of [wait], [warmup],
    [active] and [repeat] alone: called as a method it leaves the world as it
    was, a second call answers as the first, and two worlds whose profilers
    agree on those four fields (they may differ in [skip_first] and in
    everything else) get the same answer. *)
Theorem get_action_pure (w w' : World) (batch_idx : Z) :
  wait (profiler w) = wait (profiler w') →
  warmup (profiler w) = warmup (profiler w') →
  active (profiler w) = active (profiler w') →
  repeat (profiler w) = repeat (profiler w') →
  call_get_action batch_idx w = (get_action (profiler w) batch_idx, w) ∧
  (call_get_action batch_idx ;; call_get_action batch_idx) w
    = call_get_action batch_idx w ∧
  (call_get_action batch_idx w').1 = (call_get_action batch_idx w).1 ∧
  (∀ s, get_action (with_skip_first s (profiler w)) batch_idx
          = get_action (profiler w) batch_idx).
Proof.
  intros Hw Hu Ha Hr. split_and!.
  - reflexivity.
  - unfold call_get_action, mbind, M_bind, gets, lift.
    by destruct (get_action (profiler w) batch_idx).
  - simpl. symmetry. by apply get_action_same_config.
  - intros s. by apply get_action_same_config.
Qed.

Lemma get_action_pure_witness :
  (call_get_action 3
     (new_world (mkHost 3 0 (mkTimestamp 0 3 3) 0 1)
        (Profiler_init "run" [] 9 0 1 4 1 "t.json"))).1 =
  (call_get_action 3
     (new_world (mkHost 0 0 (mkTimestamp 0 0 0) 0 1)
        (Profiler_init "run" [CustomHandler 1] 0 0 1 4 1 "t.json"))).1.
Proof.
  apply (get_action_pure
           (new_world (mkHost 0 0 (mkTimestamp 0 0 0) 0 1)
              (Profiler_init "run" [CustomHandler 1] 0 0 1 4 1 "t.json"))
           (new_world (mkHost 3 0 (mkTimestamp 0 3 3) 0 1)
              (Profiler_init "run" [] 9 0 1 4 1 "t.json")) 3);
    reflexivity.
Defined.

(** ** Stepping through a method body *)

Lemma bind_eq {A B} (m : M A) (k : A → M B) w :
  (m ≫= k) w = match m w with (Ok a, w') => k a w' | (Raise e, w') => (Raise e, w') end.
Proof. reflexivity. Qed.

Lemma getattr_at {A} w l m (f : Marker → A) :
  marker_at w l m → getattr l f w = (Ok (f m), w).
Proof. unfold marker_at, getattr. by intros ->. Qed.

Lemma setattr_at w l m u :
  marker_at w l m → setattr l u w = (Ok tt, set_heap (<[l := u m]> (heap w)) w).
Proof. unfold marker_at, setattr. by intros ->. Qed.

Lemma marker_at_insert w l m m' :
  marker_at w l m → marker_at (set_heap (<[l := m']> (heap w)) w) l m'.
Proof.
  unfold marker_at. simpl. intros H. apply list_lookup_insert_eq.
  by eapply lookup_lt_Some.
Qed.

Lemma call_get_action_eq b w : call_get_action b w = (get_action (profiler w) b, w).
Proof. reflexivity. Qed.

Lemma bind_ok {A B} (m : M A) (k : A → M B) w a w' :
  m w = (Ok a, w') → (m ≫= k) w = k a w'.
Proof. intros H. by rewrite bind_eq, H. Qed.

Lemma bind_raise {A B} (m : M A) (k : A → M B) w e w' :
  m w = (Raise e, w') → (m ≫= k) w = (Raise e, w').
Proof. intros H. by rewrite bind_eq, H. Qed.

Lemma bind_ret {A B} (a : A) (k : A → M B) w : (mret a ≫= k) w = k a w.
Proof. reflexivity. Qed.

Lemma bind_gets {A B} (f : World → A) (k : A → M B) w : (gets f ≫= k) w = k (f w) w.
Proof. reflexivity. Qed.

Lemma bind_getattr {A B} l m (f : Marker → A) (k : A → M B) w :
  marker_at w l m → (getattr l f ≫= k) w = k (f m) w.
Proof. intros H. by rewrite bind_eq, (getattr_at _ _ _ _ H). Qed.

Lemma bind_setattr {B} l m u (k : unit → M B) w :
  marker_at w l m → (setattr l u ≫= k) w = k tt (set_heap (<[l := u m]> (heap w)) w).
Proof. intros H. by rewrite bind_eq, (setattr_at _ _ _ _ H). Qed.

Lemma snd_then_ret {A} (m : M A) w : ((m ;; mret tt) w).2 = (m w).2.
Proof. unfold mbind, M_bind. by destruct (m w) as [[]]. Qed.

(** ** Event fan-out *)

Lemma for_each_fan_out (l : loc) (m : Marker) (mk : string → list string → Event) hs w :
  marker_at w l m →
  for_each hs (λ handler,
     n ← getattr l name; c ← getattr l categories; call_handler handler (mk n c)) w
  = (Ok tt, add_calls (map (λ handler, (handler, mk (name m) (categories m))) hs) w).
Proof.
  revert w. induction hs as [|h hs IH]; intros w Hm.
  - simpl. unfold add_calls. rewrite app_nil_r. by destruct w.
  - simpl. rewrite !bind_eq. rewrite (getattr_at _ _ _ _ Hm).
    rewrite !bind_eq. rewrite (getattr_at _ _ _ _ Hm).
    unfold call_handler, modify. rewrite IH by done.
    unfold add_calls, add_call. simpl. by rewrite <- app_assoc.
Qed.

Lemma record_duration_event_at w l m is_start t r p ts :
  marker_at w l m →
  record_duration_event l is_start t r p ts w =
  (Ok tt, add_calls (fan_out w (process_duration_event (name m) (categories m) ts is_start t r p)) w).
Proof.
  intros Hm. unfold record_duration_event. rewrite bind_eq. simpl.
  by rewrite (for_each_fan_out l m (λ n c, process_duration_event n c ts is_start t r p)).
Qed.

Lemma record_instant_event_at w l m t r p ts :
  marker_at w l m →
  record_instant_event l t r p ts w =
  (Ok tt, add_calls (fan_out w (process_instant_event (name m) (categories m) ts t r p)) w).
Proof.
  intros Hm. unfold record_instant_event. rewrite bind_eq. simpl.
  by rewrite (for_each_fan_out l m (λ n c, process_instant_event n c ts t r p)).
Qed.

Lemma record_counter_event_at w l m t r p vs :
  marker_at w l m →
  record_counter_event l t r p vs w =
  (Ok tt, add_calls (fan_out w (process_counter_event (name m) (categories m) t r p vs)) w).
Proof.
  intros Hm. unfold record_counter_event. rewrite bind_eq. simpl.
  by rewrite (for_each_fan_out l m (λ n c, process_counter_event n c t r p vs)).
Qed.

(** ** What each marker method does, in closed form *)

Lemma start_dangling w l : heap w !! l = None → start l w = (Raise InvalidReference, w).
Proof. intros H. unfold start. rewrite bind_eq. unfold getattr at 1. by rewrite H. Qed.

Lemma start_started w l m :
  marker_at w l m → _started m = true →
  start l w = (Raise (RuntimeError (already_started_msg (name m))), w).
Proof.
  intros Hm Hs. unfold start. rewrite (bind_getattr _ _ _ _ _ Hm), Hs.
  apply bind_raise. by rewrite (bind_getattr _ _ _ _ _ Hm).
Qed.

Lemma start_no_action w l m e :
  marker_at w l m → _started m = false → current_action w = Raise e →
  start l w = (Raise e, w).
Proof.
  intros Hm Hs Ha. unfold start. rewrite (bind_getattr _ _ _ _ _ Hm), Hs.
  rewrite bind_ret, bind_gets. apply bind_raise.
  by rewrite call_get_action_eq, <- Ha.
Qed.

Lemma start_ok w l m a :
  marker_at w l m → _started m = false → current_action w = Ok a →
  start l w = (Ok tt, after_start w l m a).
Proof.
  intros Hm Hs Ha. unfold start. rewrite (bind_getattr _ _ _ _ _ Hm), Hs.
  rewrite bind_ret, bind_gets.
  rewrite (bind_ok _ _ _ a w) by (by rewrite call_get_action_eq, <- Ha).
  rewrite (bind_setattr _ _ _ _ _ Hm).
  set (m1 := with_action_at_start (Some a) m).
  set (w1 := set_heap _ w).
  assert (Hm1 : marker_at w1 l m1) by (by eapply marker_at_insert).
  rewrite !(bind_getattr _ _ _ _ _ Hm1).
  unfold after_start, start_calls. simpl.
  destruct (py_in a (actions m)) eqn:Hin.
  - set (w2 := add_calls (fan_out w1 (duration_of w1 m1 true)) w1).
    assert (Hm2 : marker_at w2 l m1) by done.
    set (w3 := if record_instant_on_start m
               then add_calls (fan_out w2 (instant_of w2 m1)) w2 else w2).
    assert (Hm3 : marker_at w3 l m1).
    { unfold w3. by destruct (record_instant_on_start m). }
    rewrite (bind_ok _ _ _ tt w3).
    + rewrite (setattr_at _ _ _ _ Hm3). f_equal.
      unfold w3, w2, w1, set_heap, add_calls.
      destruct (record_instant_on_start m); simpl;
        by rewrite list_insert_insert_eq, <- ?app_assoc, ?app_nil_r.
    + rewrite !bind_gets.
      rewrite (bind_ok _ _ _ _ _ (record_duration_event_at _ _ _ _ _ _ _ _ Hm1)).
      fold w2. rewrite (bind_getattr _ _ _ _ _ Hm2). simpl. unfold w3.
      destruct (record_instant_on_start m); [|done].
      rewrite !bind_gets. by rewrite (record_instant_event_at _ _ _ _ _ _ _ Hm2).
  - rewrite bind_ret, (setattr_at _ _ _ _ Hm1). simpl.
    by rewrite list_insert_insert_eq, app_nil_r.
Qed.

Lemma add_calls_nil w : add_calls [] w = w.
Proof. unfold add_calls. rewrite app_nil_r. by destruct w. Qed.

Lemma finish_dangling w l : heap w !! l = None → finish l w = (Raise InvalidReference, w).
Proof. intros H. unfold finish. rewrite bind_eq. unfold getattr at 1. by rewrite H. Qed.

Lemma finish_not_started w l m :
  marker_at w l m → _started m = false →
  finish l w = (Raise (RuntimeError (not_started_msg (name m))), w).
Proof.
  intros Hm Hs. unfold finish. rewrite (bind_getattr _ _ _ _ _ Hm), Hs.
  apply bind_raise. by rewrite (bind_getattr _ _ _ _ _ Hm).
Qed.

Lemma finish_ok w l m :
  marker_at w l m → _started m = true →
  finish l w = (Ok tt, after_finish w l m).
Proof.
  intros Hm Hs. unfold finish. rewrite (bind_getattr _ _ _ _ _ Hm), Hs.
  rewrite bind_ret, !(bind_getattr _ _ _ _ _ Hm).
  unfold after_finish, finish_calls.
  destruct (action_in (_action_at_start m) (actions m)).
  - set (w2 := add_calls (fan_out w (duration_of w m false)) w).
    assert (Hm2 : marker_at w2 l m) by done.
    set (w3 := if record_instant_on_finish m
               then add_calls (fan_out w2 (instant_of w2 m)) w2 else w2).
    assert (Hm3 : marker_at w3 l m).
    { unfold w3. by destruct (record_instant_on_finish m). }
    rewrite (bind_ok _ _ _ tt w3).
    + rewrite (setattr_at _ _ _ _ Hm3). f_equal.
      unfold w3, w2, set_heap, add_calls.
      destruct (record_instant_on_finish m); simpl;
        by rewrite <- ?app_assoc, ?app_nil_r.
    + rewrite !bind_gets.
      rewrite (bind_ok _ _ _ _ _ (record_duration_event_at _ _ _ _ _ _ _ _ Hm)).
      fold w2. rewrite (bind_getattr _ _ _ _ _ Hm2). unfold w3.
      destruct (record_instant_on_finish m); [|done].
      rewrite !bind_gets. by rewrite (record_instant_event_at _ _ _ _ _ _ _ Hm2).
  - rewrite bind_ret, (setattr_at _ _ _ _ Hm). simpl.
    by rewrite app_nil_r.
Qed.

Lemma instant_no_action w l e :
  current_action w = Raise e → instant l w = (Raise e, w).
Proof.
  intros Ha. unfold instant. rewrite bind_gets. apply bind_raise.
  by rewrite call_get_action_eq, <- Ha.
Qed.

Lemma instant_dangling w l a :
  current_action w = Ok a → heap w !! l = None →
  instant l w = (Raise InvalidReference, w).
Proof.
  intros Ha H. unfold instant. rewrite bind_gets.
  rewrite (bind_ok _ _ _ a w) by (by rewrite call_get_action_eq, <- Ha).
  apply bind_raise. unfold getattr. by rewrite H.
Qed.

Lemma instant_ok w l m a :
  marker_at w l m → current_action w = Ok a →
  instant l w = (Ok tt, add_calls (instant_calls w m a) w).
Proof.
  intros Hm Ha. unfold instant. rewrite bind_gets.
  rewrite (bind_ok _ _ _ a w) by (by rewrite call_get_action_eq, <- Ha).
  rewrite (bind_getattr _ _ _ _ _ Hm). unfold instant_calls.
  destruct (py_in a (actions m)).
  - rewrite !bind_gets. by rewrite (record_instant_event_at _ _ _ _ _ _ _ Hm).
  - by rewrite add_calls_nil.
Qed.

Lemma counter_no_action w l vs e :
  current_action w = Raise e → counter l vs w = (Raise e, w).
Proof.
  intros Ha. unfold counter. rewrite bind_gets. apply bind_raise.
  by rewrite call_get_action_eq, <- Ha.
Qed.

Lemma counter_dangling w l vs a :
  current_action w = Ok a → heap w !! l = None →
  counter l vs w = (Raise InvalidReference, w).
Proof.
  intros Ha H. unfold counter. rewrite bind_gets.
  rewrite (bind_ok _ _ _ a w) by (by rewrite call_get_action_eq, <- Ha).
  apply bind_raise. unfold getattr. by rewrite H.
Qed.

Lemma counter_ok w l m vs a :
  marker_at w l m → current_action w = Ok a →
  counter l vs w = (Ok tt, add_calls (counter_calls w m a vs) w).
Proof.
  intros Hm Ha. unfold counter. rewrite bind_gets.
  rewrite (bind_ok _ _ _ a w) by (by rewrite call_get_action_eq, <- Ha).
  rewrite (bind_getattr _ _ _ _ _ Hm). unfold counter_calls.
  destruct (py_in a (actions m)).
  - rewrite !bind_gets. by rewrite (record_counter_event_at _ _ _ _ _ _ _ Hm).
  - by rewrite add_calls_nil.
Qed.

(** ** Construction and the registry *)

Lemma Marker_init_duplicate w n acts on_start on_finish cats other :
  registered w n other → other ≠ length (heap w) →
  Marker_init n acts on_start on_finish cats w
  = (Raise (RuntimeError instantiated_directly_msg), w).
Proof.
  intros Hr Hne. unfold Marker_init. rewrite !bind_gets. cbv beta.
  unfold registered in Hr. rewrite Hr.
  apply bind_raise. by rewrite bool_decide_eq_true_2.
Qed.

Lemma Marker_init_fresh w n acts on_start on_finish cats :
  _names_to_markers (profiler w) !! n = None →
  Marker_init n acts on_start on_finish cats w
  = (Ok (length (heap w)),
     set_heap (heap w ++ [new_marker n acts on_start on_finish cats]) w).
Proof.
  intros Hr. unfold Marker_init. rewrite !bind_gets. cbv beta. by rewrite Hr.
Qed.

Lemma marker_create w n acts on_start on_finish cats :
  _names_to_markers (profiler w) !! n = None →
  marker n acts on_start on_finish cats w
  = (Ok (length (heap w)),
     after_create w n (new_marker n acts on_start on_finish cats)).
Proof.
  intros Hr. unfold marker. rewrite bind_gets. cbv beta. rewrite Hr.
  set (m := new_marker n acts on_start on_finish cats).
  set (w2 := after_create w n m).
  rewrite (bind_ok _ _ _ tt w2); cycle 1.
  { by rewrite (bind_ok _ _ _ _ _ (Marker_init_fresh _ _ _ _ _ _ Hr)). }
  assert (Hreg : registered w2 n (length (heap w))) by apply lookup_insert_eq.
  assert (Hm : marker_at w2 (length (heap w)) m).
  { unfold marker_at. simpl. by apply list_lookup_middle. }
  assert (Hsub : subscript n w2 = (Ok (length (heap w)), w2)).
  { unfold subscript. rewrite bind_gets. cbv beta. by rewrite Hreg. }
  rewrite (bind_ok _ _ _ _ _ Hsub).
  rewrite (bind_setattr _ _ _ _ _ Hm).
  replace (set_heap _ w2) with w2; [done|].
  unfold set_heap. simpl. rewrite list_insert_id; done.
Qed.

Lemma marker_existing w n l m acts on_start on_finish cats :
  registered w n l → marker_at w l m →
  marker n acts on_start on_finish cats w
  = (Ok l, set_heap (<[l := with_categories cats m]> (heap w)) w).
Proof.
  intros Hr Hm. unfold marker. rewrite bind_gets. cbv beta.
  unfold registered in Hr. rewrite Hr. rewrite bind_ret.
  assert (Hsub : ∀ w', profiler w' = profiler w → subscript n w' = (Ok l, w')).
  { intros w' Hp. unfold subscript. rewrite bind_gets. cbv beta. by rewrite Hp, Hr. }
  rewrite (bind_ok _ _ _ _ _ (Hsub w eq_refl)).
  rewrite (bind_setattr _ _ _ _ _ Hm). by apply Hsub.
Qed.

Lemma marker_dangling w n l acts on_start on_finish cats :
  registered w n l → heap w !! l = None →
  marker n acts on_start on_finish cats w = (Raise InvalidReference, w).
Proof.
  intros Hr Hm. unfold marker. rewrite bind_gets. cbv beta.
  unfold registered in Hr. rewrite Hr. rewrite bind_ret.
  rewrite (bind_ok _ _ _ l w); cycle 1.
  { unfold subscript. rewrite bind_gets. cbv beta. by rewrite Hr. }
  apply bind_raise. unfold setattr. by rewrite Hm.
Qed.

(** ** Every outcome of a call *)

Lemma get_action_raise p b e : get_action p b = Raise e → e = ZeroDivisionError.
Proof.
  rewrite get_action_unfold. repeat case_match; congruence.
Qed.

Lemma start_cases w l :
  (start l w).2 = w ∨
  ∃ m a, marker_at w l m ∧ _started m = false ∧ current_action w = Ok a ∧
         start l w = (Ok tt, after_start w l m a).
Proof.
  destruct (heap w !! l) as [m|] eqn:Hm.
  - destruct (_started m) eqn:Hs.
    + left. by rewrite (start_started _ _ _ Hm Hs).
    + destruct (current_action w) as [a|e] eqn:Ha.
      * right. exists m, a. eauto using start_ok.
      * left. by rewrite (start_no_action _ _ _ _ Hm Hs Ha).
  - left. by rewrite start_dangling.
Qed.

Lemma finish_cases w l :
  (finish l w).2 = w ∨
  ∃ m, marker_at w l m ∧ _started m = true ∧ finish l w = (Ok tt, after_finish w l m).
Proof.
  destruct (heap w !! l) as [m|] eqn:Hm.
  - destruct (_started m) eqn:Hs.
    + right. exists m. eauto using finish_ok.
    + left. by rewrite (finish_not_started _ _ _ Hm Hs).
  - left. by rewrite finish_dangling.
Qed.

Lemma instant_cases w l : ∃ evs, (instant l w).2 = add_calls evs w.
Proof.
  destruct (current_action w) as [a|e] eqn:Ha.
  - destruct (heap w !! l) as [m|] eqn:Hm.
    + eexists. by rewrite (instant_ok _ _ _ _ Hm Ha).
    + exists []. by rewrite (instant_dangling _ _ _ Ha Hm), add_calls_nil.
  - exists []. by rewrite (instant_no_action _ _ _ Ha), add_calls_nil.
Qed.

Lemma counter_cases w l vs : ∃ evs, (counter l vs w).2 = add_calls evs w.
Proof.
  destruct (current_action w) as [a|e] eqn:Ha.
  - destruct (heap w !! l) as [m|] eqn:Hm.
    + eexists. by rewrite (counter_ok _ _ _ _ _ Hm Ha).
    + exists []. by rewrite (counter_dangling _ _ _ _ Ha Hm), add_calls_nil.
  - exists []. by rewrite (counter_no_action _ _ _ _ Ha), add_calls_nil.
Qed.

Lemma Marker_init_cases w n acts on_start on_finish cats :
  (Marker_init n acts on_start on_finish cats w).2 = w ∨
  Marker_init n acts on_start on_finish cats w
  = (Ok (length (heap w)),
     set_heap (heap w ++ [new_marker n acts on_start on_finish cats]) w).
Proof.
  unfold Marker_init. rewrite !bind_gets. cbv beta.
  destruct (_names_to_markers (profiler w) !! n) as [other|]; [|by right].
  case_bool_decide; [by left|by right].
Qed.

Lemma marker_cases w n acts on_start on_finish cats :
  (marker n acts on_start on_finish cats w).2 = w ∨
  (∃ l m, registered w n l ∧ marker_at w l m ∧
     marker n acts on_start on_finish cats w
     = (Ok l, set_heap (<[l := with_categories cats m]> (heap w)) w)) ∨
  (_names_to_markers (profiler w) !! n = None ∧
     marker n acts on_start on_finish cats w
     = (Ok (length (heap w)),
        after_create w n (new_marker n acts on_start on_finish cats))).
Proof.
  destruct (_names_to_markers (profiler w) !! n) as [l|] eqn:Hr.
  - destruct (heap w !! l) as [m|] eqn:Hm.
    + right; left. exists l, m. eauto using marker_existing.
    + left. by rewrite (marker_dangling _ _ _ _ _ _ _ Hr Hm).
  - right; right. eauto using marker_create.
Qed.

(** ** The registry invariant *)

Lemma registry_ok_new_world h p :
  _names_to_markers p = ∅ → registry_ok (new_world h p).
Proof. intros He n l. unfold registered. simpl. by rewrite He, lookup_empty. Qed.

Lemma registry_ok_ext w w' :
  _names_to_markers (profiler w') = _names_to_markers (profiler w) →
  (∀ l m, marker_at w l m → ∃ m', marker_at w' l m' ∧ name m' = name m) →
  registry_ok w → registry_ok w'.
Proof.
  intros Hreg Hheap Hok n l Hn. unfold registered in Hn. rewrite Hreg in Hn.
  destruct (Hok n l Hn) as (m & Hm & Hname).
  destruct (Hheap l m Hm) as (m' & Hm' & Hname').
  exists m'. split; [done|congruence].
Qed.

Lemma marker_at_update w l m m' l0 m0 h p cs :
  marker_at w l m → name m' = name m → marker_at w l0 m0 →
  ∃ m0', marker_at (mkWorld h (<[l := m']> (heap w)) p cs) l0 m0' ∧ name m0' = name m0.
Proof.
  unfold marker_at. simpl. intros Hm Hname Hm0.
  destruct (decide (l = l0)) as [<-|Hne].
  - exists m'. split; [|congruence].
    apply list_lookup_insert_eq. by eapply lookup_lt_Some.
  - exists m0. by rewrite list_lookup_insert_ne.
Qed.

Lemma registry_ok_add_calls evs w : registry_ok w → registry_ok (add_calls evs w).
Proof. apply registry_ok_ext; [done|]. intros l m Hm. by exists m. Qed.

Lemma registry_ok_start w l : registry_ok w → registry_ok (start l w).2.
Proof.
  intros Hok. destruct (start_cases w l) as [->|(m & a & Hm & _ & _ & ->)]; [done|].
  revert Hok. apply registry_ok_ext; [done|].
  intros l0 m0. eapply marker_at_update; [exact Hm|done].
Qed.

Lemma registry_ok_finish w l : registry_ok w → registry_ok (finish l w).2.
Proof.
  intros Hok. destruct (finish_cases w l) as [->|(m & Hm & _ & ->)]; [done|].
  revert Hok. apply registry_ok_ext; [done|].
  intros l0 m0. eapply marker_at_update; [exact Hm|done].
Qed.

Lemma registry_ok_Marker_init w n acts on_start on_finish cats :
  registry_ok w → registry_ok (Marker_init n acts on_start on_finish cats w).2.
Proof.
  intros Hok. destruct (Marker_init_cases w n acts on_start on_finish cats) as [->| ->];
    [done|].
  revert Hok. apply registry_ok_ext; [done|].
  intros l m Hm. exists m. split; [|done]. by apply lookup_app_l_Some.
Qed.

Lemma registry_ok_marker w n acts on_start on_finish cats :
  registry_ok w → registry_ok (marker n acts on_start on_finish cats w).2.
Proof.
  intros Hok.
  destruct (marker_cases w n acts on_start on_finish cats)
    as [->|[(l & m & _ & Hm & ->)|(Hnone & ->)]]; [done| |].
  - revert Hok. apply registry_ok_ext; [done|].
    intros l0 m0. eapply marker_at_update; [exact Hm|done].
  - intros n' l' Hn'. unfold registered in Hn'. simpl in Hn'.
    destruct (decide (n = n')) as [<-|Hne].
    + rewrite lookup_insert_eq in Hn'. injection Hn' as <-.
      eexists. split; [by apply list_lookup_middle|done].
    + rewrite lookup_insert_ne in Hn' by done.
      destruct (Hok n' l' Hn') as (m & Hm & Hname).
      exists m. split; [|done]. by apply lookup_app_l_Some.
Qed.

Lemma registry_ok_run_op o w : registry_ok w → registry_ok (run_op o w).2.
Proof.
  intros Hok. destruct o as [n acts s f cats|n acts s f cats|l|l|l|l vs|h]; simpl.
  - rewrite snd_then_ret. by apply registry_ok_marker.
  - rewrite snd_then_ret. by apply registry_ok_Marker_init.
  - by apply registry_ok_start.
  - by apply registry_ok_finish.
  - destruct (instant_cases w l) as [evs ->]. by apply registry_ok_add_calls.
  - destruct (counter_cases w l vs) as [evs ->]. by apply registry_ok_add_calls.
  - done.
Qed.

Lemma registry_ok_run ops w : registry_ok w → registry_ok (run ops w).
Proof.
  revert w. induction ops as [|o ops IH]; intros w Hok; [done|].
  simpl. by apply IH, registry_ok_run_op.
Qed.

(** A registered name stays registered, for the same object. *)
Lemma registered_run_op o w n l : registered w n l → registered (run_op o w).2 n l.
Proof.
  intros Hr. destruct o as [n' acts s f cats|n' acts s f cats|l'|l'|l'|l' vs|h]; simpl.
  - rewrite snd_then_ret.
    destruct (marker_cases w n' acts s f cats)
      as [->|[(l0 & m & _ & Hm & ->)|(Hnone & ->)]]; [done..|].
    unfold registered in *. simpl. rewrite lookup_insert_ne; [done|].
    intros ->. congruence.
  - rewrite snd_then_ret.
    by destruct (Marker_init_cases w n' acts s f cats) as [->| ->].
  - by destruct (start_cases w l') as [->|(m & a & _ & _ & _ & ->)].
  - by destruct (finish_cases w l') as [->|(m & _ & _ & ->)].
  - by destruct (instant_cases w l') as [evs ->].
  - by destruct (counter_cases w l' vs) as [evs ->].
  - done.
Qed.

Lemma registered_run ops w n l : registered w n l → registered (run ops w) n l.
Proof.
  revert w. induction ops as [|o ops IH]; intros w Hr; [done|].
  simpl. by apply IH, registered_run_op.
Qed.

(** A call that neither starts nor finishes the marker at [l] changes, of
    that marker, its categories at most. *)
Lemma run_op_leaves_pair o w l m :
  marker_at w l m → leaves_pair l o →
  ∃ cats, marker_at (run_op o w).2 l (with_categories cats m).
Proof.
  assert (Hid : with_categories (categories m) m = m) by (by destruct m).
  intros Hm [Hns Hnf].
  destruct o as [n' acts s f cats|n' acts s f cats|l'|l'|l'|l' vs|h]; simpl.
  - rewrite snd_then_ret.
    destruct (marker_cases w n' acts s f cats)
      as [->|[(l0 & m0 & _ & Hm0 & ->)|(Hnone & ->)]].
    + exists (categories m). by rewrite Hid.
    + unfold marker_at in *. simpl. destruct (decide (l0 = l)) as [->|Hne].
      * exists cats. rewrite list_lookup_insert_eq by (by eapply lookup_lt_Some).
        congruence.
      * exists (categories m). by rewrite list_lookup_insert_ne, Hid.
    + exists (categories m). rewrite Hid. by apply lookup_app_l_Some.
  - rewrite snd_then_ret. exists (categories m). rewrite Hid.
    destruct (Marker_init_cases w n' acts s f cats) as [->| ->]; [done|].
    by apply lookup_app_l_Some.
  - exists (categories m). rewrite Hid.
    assert (l' ≠ l) by congruence.
    destruct (start_cases w l') as [->|(m0 & a & _ & _ & _ & ->)]; [done|].
    unfold marker_at. simpl. by rewrite list_lookup_insert_ne.
  - exists (categories m). rewrite Hid.
    assert (l' ≠ l) by congruence.
    destruct (finish_cases w l') as [->|(m0 & _ & _ & ->)]; [done|].
    unfold marker_at. simpl. by rewrite list_lookup_insert_ne.
  - exists (categories m). rewrite Hid. by destruct (instant_cases w l') as [evs ->].
  - exists (categories m). rewrite Hid. by destruct (counter_cases w l' vs) as [evs ->].
  - exists (categories m). by rewrite Hid.
Qed.

Lemma run_leaves_pair ops w l m :
  marker_at w l m → Forall (leaves_pair l) ops →
  ∃ cats, marker_at (run ops w) l (with_categories cats m).
Proof.
  revert w m. induction ops as [|o ops IH]; intros w m Hm Hall.
  - exists (categories m). by destruct m.
  - apply Forall_cons in Hall as [Ho Hall]. simpl.
    destruct (run_op_leaves_pair o w l m Hm Ho) as [c1 H1].
    destruct (IH _ _ H1 Hall) as [c2 H2].
    exists c2. by destruct m.
Qed.

(** ** The start/finish pair *)

Lemma new_calls_app w cs h hp p :
  new_calls w (mkWorld h hp p (calls w ++ cs)) = cs.
Proof. unfold new_calls. simpl. apply drop_app_length. Qed.

Lemma start_ok_inv w l w1 :
  start l w = (Ok tt, w1) →
  ∃ m a, marker_at w l m ∧ _started m = false ∧ current_action w = Ok a ∧
         w1 = after_start w l m a.
Proof.
  intros Hstart. destruct (heap w !! l) as [m|] eqn:Hm.
  - destruct (_started m) eqn:Hs.
    + by rewrite (start_started _ _ _ Hm Hs) in Hstart.
    + destruct (current_action w) as [a|e] eqn:Ha.
      * rewrite (start_ok _ _ _ _ Hm Hs Ha) in Hstart. exists m, a.
        split_and!; congruence.
      * by rewrite (start_no_action _ _ _ _ Hm Hs Ha) in Hstart.
  - by rewrite (start_dangling _ _ Hm) in Hstart.
Qed.

Lemma marker_at_after_start w l m a :
  marker_at w l m →
  marker_at (after_start w l m a) l (with_started true (with_action_at_start (Some a) m)).
Proof.
  intros Hm. unfold marker_at. simpl. apply list_lookup_insert_eq.
  by eapply lookup_lt_Some.
Qed.

Lemma marker_at_after_finish w l m :
  marker_at w l m → marker_at (after_finish w l m) l (with_started false m).
Proof.
  intros Hm. unfold marker_at. simpl. apply list_lookup_insert_eq.
  by eapply lookup_lt_Some.
Qed.

(** C5: a [start()] that succeeds evaluates the action once and stores it;
    that stored action decides what [start()] emits and, whatever happens
    before the matching [finish()] (the host moving to a batch where
    [get_action] is ACTIVE included), what [finish()] emits.  If it is not
    among the marker's [actions], neither call reaches a handler.  The
    [_started] flag is set by [start()] and cleared by [finish()] either way. *)
Theorem frozen_action_gates_pair (w w1 : World) (l : loc) (ops : list Op) :
  start l w = (Ok tt, w1) →
  Forall (leaves_pair l) ops →
  ∃ m a cats,
    marker_at w l m ∧ current_action w = Ok a ∧
    marker_at w1 l (with_started true (with_action_at_start (Some a) m)) ∧
    new_calls w w1 = start_calls w m (Some a) ∧
    let w2 := run ops w1 in
    let m2 := with_categories cats (with_started true (with_action_at_start (Some a) m)) in
    marker_at w2 l m2 ∧
    finish l w2 = (Ok tt, after_finish w2 l m2) ∧
    marker_at (after_finish w2 l m2) l (with_started false m2) ∧
    new_calls w2 (after_finish w2 l m2) = finish_calls w2 m2 (Some a) ∧
    (py_in a (actions m) = false →
       calls w1 = calls w ∧ calls (after_finish w2 l m2) = calls w2).
Proof.
  intros Hstart Hops.
  destruct (start_ok_inv _ _ _ Hstart) as (m & a & Hm & Hs & Ha & ->).
  set (m1 := with_started true (with_action_at_start (Some a) m)).
  pose proof (marker_at_after_start w l m a Hm) as Hm1. fold m1 in Hm1.
  destruct (run_leaves_pair ops _ l m1 Hm1 Hops) as [cats Hm2].
  exists m, a, cats. simpl.
  split_and!; try done.
  - apply new_calls_app.
  - by apply finish_ok.
  - by apply marker_at_after_finish.
  - apply new_calls_app.
  - intros Hin. unfold start_calls, finish_calls. simpl. rewrite Hin.
    by rewrite !app_nil_r.
Qed.

Lemma frozen_action_gates_pair_witness :
  current_action (sample_world 5) = Ok SKIP ∧
  current_action (run [op_host (host_at 1)] (start 0 (sample_world 5)).2) = Ok ACTIVE ∧
  calls (finish 0 (run [op_host (host_at 1)] (start 0 (sample_world 5)).2)).2 = [].
Proof.
  split; [reflexivity|]. split; [reflexivity|].
  destruct (frozen_action_gates_pair (sample_world 5) (start 0 (sample_world 5)).2 0
              [op_host (host_at 1)])
    as (m & a & cats & Hm & Ha & _ & _ & _ & Hfin & _ & _ & Hskip).
  - reflexivity.
  - repeat constructor; discriminate.
  - rewrite Hfin. cbn [snd].
    assert (a = SKIP) as -> by (vm_compute in Ha; congruence).
    assert (actions m = [WARMUP; ACTIVE]) as Hacts
      by (vm_compute in Hm; injection Hm as <-; reflexivity).
    destruct Hskip as [_ ->]; [by rewrite Hacts|].
    reflexivity.
Defined.

Lemma registry_ok_sample_world b : registry_ok (sample_world b).
Proof. apply registry_ok_marker, registry_ok_new_world. reflexivity. Qed.

(** C7: a protocol violation raises at once and changes nothing.  [start()]
    on a started marker and [finish()] on a marker that is not started raise
    [RuntimeError]; so does constructing a [Marker] directly for a name the
    profiler has registered.  In each case the world at the raise is the
    world before the call: no handler was called, and [_started] and
    [_action_at_start] are what they were. *)
Theorem protocol_violations_raise (w : World) (l : loc) (m : Marker) :
  registry_ok w → marker_at w l m →
  (_started m = true →
     start l w = (Raise (RuntimeError (already_started_msg (name m))), w)) ∧
  (_started m = false →
     finish l w = (Raise (RuntimeError (not_started_msg (name m))), w)) ∧
  (∀ n other acts on_start on_finish cats, registered w n other →
     Marker_init n acts on_start on_finish cats w
     = (Raise (RuntimeError instantiated_directly_msg), w)).
Proof.
  intros Hok Hm. split_and!.
  - by apply start_started.
  - by apply finish_not_started.
  - intros n other acts s f cats Hr.
    apply (Marker_init_duplicate _ _ _ _ _ _ other Hr).
    destruct (Hok n other Hr) as (m' & Hm' & _).
    apply lookup_lt_Some in Hm'. lia.
Qed.

Lemma protocol_violations_raise_witness :
  finish 0 (sample_world 0)
    = (Raise (RuntimeError (not_started_msg "fwd")), sample_world 0) ∧
  start 0 (start 0 (sample_world 0)).2
    = (Raise (RuntimeError (already_started_msg "fwd")), (start 0 (sample_world 0)).2) ∧
  Marker_init "fwd" [ACTIVE] false false [] (sample_world 0)
    = (Raise (RuntimeError instantiated_directly_msg), sample_world 0).
Proof.
  split_and!.
  - apply (protocol_violations_raise (sample_world 0) 0
             (new_marker "fwd" [WARMUP; ACTIVE] false false []));
      [apply registry_ok_sample_world | reflexivity | reflexivity].
  - apply (protocol_violations_raise (start 0 (sample_world 0)).2 0
             (with_started true (with_action_at_start (Some WARMUP)
                (new_marker "fwd" [WARMUP; ACTIVE] false false []))));
      [apply registry_ok_start, registry_ok_sample_world | reflexivity | reflexivity].
  - apply (protocol_violations_raise (sample_world 0) 0
             (new_marker "fwd" [WARMUP; ACTIVE] false false [])
             (registry_ok_sample_world 0) eq_refl) with (other := 0%nat).
    reflexivity.
Defined.

Lemma marker_ok_inv w n acts on_start on_finish cats l w1 :
  marker n acts on_start on_finish cats w = (Ok l, w1) →
  (∃ m, registered w n l ∧ marker_at w l m ∧
        w1 = set_heap (<[l := with_categories cats m]> (heap w)) w) ∨
  (_names_to_markers (profiler w) !! n = None ∧ l = length (heap w) ∧
   w1 = after_create w n (new_marker n acts on_start on_finish cats)).
Proof.
  intros Hcall. destruct (_names_to_markers (profiler w) !! n) as [l0|] eqn:Hr.
  - destruct (heap w !! l0) as [m|] eqn:Hm.
    + rewrite (marker_existing _ _ _ _ _ _ _ _ Hr Hm) in Hcall.
      left. exists m. injection Hcall as <- <-. done.
    + by rewrite (marker_dangling _ _ _ _ _ _ _ Hr Hm) in Hcall.
  - rewrite (marker_create _ _ _ _ _ _ Hr) in Hcall.
    right. injection Hcall as <- <-. done.
Qed.

Lemma marker_ok_registered w n acts on_start on_finish cats l w1 :
  marker n acts on_start on_finish cats w = (Ok l, w1) → registered w1 n l.
Proof.
  intros Hcall.
  destruct (marker_ok_inv _ _ _ _ _ _ _ _ Hcall)
    as [(m & Hr & _ & ->)|(_ & -> & ->)]; [done|].
  apply lookup_insert_eq.
Qed.

(** C6: [Profiler.marker(name, ...)] for a registered name returns the
    registered object itself and assigns its [categories]; its [actions],
    [record_instant_on_start] and [record_instant_on_finish] (and every other
    marker, the registry and the handlers) stay as they are and no object is
    created.  So whatever happens after a first [marker(name, ...)], a later
    one with any arguments returns the address the first returned. *)
Theorem marker_returns_registered (w : World) (n : string)
    (acts : list ProfilerAction) (on_start on_finish : bool) (cats : list string) :
  registry_ok w →
  (∀ l, registered w n l →
     ∃ m, marker_at w l m ∧
       let w' := (marker n acts on_start on_finish cats w).2 in
       (marker n acts on_start on_finish cats w).1 = Ok l ∧
       marker_at w' l (with_categories cats m) ∧
       categories (with_categories cats m) = cats ∧
       actions (with_categories cats m) = actions m ∧
       record_instant_on_start (with_categories cats m) = record_instant_on_start m ∧
       record_instant_on_finish (with_categories cats m) = record_instant_on_finish m ∧
       length (heap w') = length (heap w) ∧
       (∀ l', l' ≠ l → heap w' !! l' = heap w !! l') ∧
       profiler w' = profiler w ∧ calls w' = calls w ∧ host w' = host w) ∧
  (∀ l w1 ops acts' on_start' on_finish' cats',
     marker n acts on_start on_finish cats w = (Ok l, w1) →
     (marker n acts' on_start' on_finish' cats' (run ops w1)).1 = Ok l ∧
     length (heap (marker n acts' on_start' on_finish' cats' (run ops w1)).2)
       = length (heap (run ops w1))).
Proof.
  intros Hok.
  assert (Hexisting : ∀ w0 l a s f c, registry_ok w0 → registered w0 n l →
            ∃ m, marker_at w0 l m ∧
                 marker n a s f c w0
                 = (Ok l, set_heap (<[l := with_categories c m]> (heap w0)) w0)).
  { intros w0 l a s f c Hok0 Hr. destruct (Hok0 n l Hr) as (m & Hm & _).
    exists m. split; [done|]. by apply marker_existing. }
  split.
  - intros l Hr. destruct (Hexisting w l acts on_start on_finish cats Hok Hr)
      as (m & Hm & ->).
    exists m. simpl. split_and!; try done.
    + apply list_lookup_insert_eq. by eapply lookup_lt_Some.
    + apply length_insert.
    + intros l' Hne. by apply list_lookup_insert_ne.
  - intros l w1 ops a' s' f' c' Hcall.
    assert (Hr : registered (run ops w1) n l).
    { eapply registered_run, marker_ok_registered, Hcall. }
    assert (Hok1 : registry_ok (run ops w1)).
    { apply registry_ok_run.
      pose proof (registry_ok_marker w n acts on_start on_finish cats Hok) as H.
      by rewrite Hcall in H. }
    destruct (Hexisting _ l a' s' f' c' Hok1 Hr) as (m & Hm & ->).
    simpl. split; [done|]. apply length_insert.
Qed.

Lemma marker_returns_registered_witness :
  (marker "fwd" [ACTIVE] true true ["step"]
     (run [op_host (host_at 3); op_start 0]
        (marker_default "fwd" (new_world (host_at 0) (Profiler_default "run"))).2)).1
  = Ok 0%nat.
Proof.
  apply (marker_returns_registered (new_world (host_at 0) (Profiler_default "run"))
           "fwd" [WARMUP; ACTIVE] false false []);
    [apply registry_ok_new_world; reflexivity | reflexivity].
Defined.

(** ** The handlers of a run *)

Lemma handlers_run_op o w :
  _event_handlers (profiler (run_op o w).2) = _event_handlers (profiler w).
Proof.
  destruct o as [n acts s f cats|n acts s f cats|l|l|l|l vs|h]; simpl.
  - rewrite snd_then_ret.
    by destruct (marker_cases w n acts s f cats)
      as [->|[(l0 & m & _ & _ & ->)|(_ & ->)]].
  - rewrite snd_then_ret.
    by destruct (Marker_init_cases w n acts s f cats) as [->| ->].
  - by destruct (start_cases w l) as [->|(m & a & _ & _ & _ & ->)].
  - by destruct (finish_cases w l) as [->|(m & _ & _ & ->)].
  - by destruct (instant_cases w l) as [evs ->].
  - by destruct (counter_cases w l vs) as [evs ->].
  - done.
Qed.

Lemma handlers_run ops w :
  _event_handlers (profiler (run ops w)) = _event_handlers (profiler w).
Proof.
  revert w. induction ops as [|o ops IH]; intros w; [done|].
  simpl. by rewrite IH, handlers_run_op.
Qed.

(** C9: a profiler constructed with no event handlers (the argument empty
    or left out) has the one handler [JSONTraceHandler()]; it keeps it for
    the whole run, so each recorded event makes exactly one handler call. *)
Theorem default_handler_installed (run_directory : string)
    (skip_first wait warmup active repeat : Z) (merged_trace_file : string)
    (h : Host) (ops : list Op) (l : loc) (m : Marker)
    (is_start : bool) (t r p : Z) (ts : Timestamp) (values : list (string * Number)) :
  let w := run ops (new_world h
             (Profiler_init run_directory [] skip_first wait warmup active repeat
                merged_trace_file)) in
  marker_at w l m →
  _event_handlers
    (Profiler_init run_directory [] skip_first wait warmup active repeat
       merged_trace_file) = [JSONTraceHandler] ∧
  _event_handlers (Profiler_default run_directory) = [JSONTraceHandler] ∧
  _event_handlers (profiler w) = [JSONTraceHandler] ∧
  record_duration_event l is_start t r p ts w
    = (Ok tt, add_calls [(JSONTraceHandler,
                          process_duration_event (name m) (categories m) ts is_start t r p)] w) ∧
  record_instant_event l t r p ts w
    = (Ok tt, add_calls [(JSONTraceHandler,
                          process_instant_event (name m) (categories m) ts t r p)] w) ∧
  record_counter_event l t r p values w
    = (Ok tt, add_calls [(JSONTraceHandler,
                          process_counter_event (name m) (categories m) t r p values)] w).
Proof.
  intros w Hm.
  assert (Hh : _event_handlers (profiler w) = [JSONTraceHandler]).
  { unfold w. by rewrite handlers_run. }
  split_and!; try done.
  - rewrite (record_duration_event_at _ _ _ _ _ _ _ _ Hm). unfold fan_out. by rewrite Hh.
  - rewrite (record_instant_event_at _ _ _ _ _ _ _ Hm). unfold fan_out. by rewrite Hh.
  - rewrite (record_counter_event_at _ _ _ _ _ _ _ Hm). unfold fan_out. by rewrite Hh.
Qed.

Lemma default_handler_installed_witness :
  calls (instant 0 (sample_world 1)).2
  = [(JSONTraceHandler,
      process_instant_event "fwd" [] (mkTimestamp 0 1 1) 1001 0 4242)] ∧
  _event_handlers (profiler (sample_world 1)) = [JSONTraceHandler].
Proof.
  split; [reflexivity|].
  apply (default_handler_installed "run" 0 0 1 4 1 "merged_profiler_trace.json"
           (host_at 1) [op_marker "fwd" [WARMUP; ACTIVE] false false []] 0
           (new_marker "fwd" [WARMUP; ACTIVE] false false [])
           true 0 0 0 (mkTimestamp 0 0 0) []).
  reflexivity.
Defined.

(** C10: [instant()] and [counter(values)] neither read nor write the
    marker's [_started] and [_action_at_start].  What they do is fixed by
    the action of the moment and the marker's [actions]: they call the
    handlers when [get_action] at the current batch is among them, do
    nothing when it is not, and pass on the exception of [get_action] when
    it raises; the heap is left as it was, the same happens whatever the
    two fields hold, and no [RuntimeError] comes out. *)
Theorem instant_counter_stateless (w : World) (l : loc) (m : Marker)
    (values : list (string * Number)) (b : bool) (frozen : option ProfilerAction) :
  marker_at w l m →
  let w_alt :=
    set_heap (<[l := with_started b (with_action_at_start frozen m)]> (heap w)) w in
  instant l w
    = match current_action w with
      | Ok a => (Ok tt, add_calls (if py_in a (actions m)
                                   then fan_out w (instant_of w m) else []) w)
      | Raise e => (Raise e, w)
      end ∧
  counter l values w
    = match current_action w with
      | Ok a => (Ok tt, add_calls (if py_in a (actions m)
                                   then fan_out w (counter_of w m values) else []) w)
      | Raise e => (Raise e, w)
      end ∧
  heap (instant l w).2 = heap w ∧
  heap (counter l values w).2 = heap w ∧
  (instant l w_alt).1 = (instant l w).1 ∧
  calls (instant l w_alt).2 = calls (instant l w).2 ∧
  heap (instant l w_alt).2 = heap w_alt ∧
  (counter l values w_alt).1 = (counter l values w).1 ∧
  calls (counter l values w_alt).2 = calls (counter l values w).2 ∧
  heap (counter l values w_alt).2 = heap w_alt ∧
  (∀ msg, (instant l w).1 ≠ Raise (RuntimeError msg)) ∧
  (∀ msg, (counter l values w).1 ≠ Raise (RuntimeError msg)).
Proof.
  intros Hm w_alt.
  assert (Hm' : marker_at w_alt l (with_started b (with_action_at_start frozen m))).
  { by eapply marker_at_insert. }
  assert (Hcur : current_action w_alt = current_action w) by done.
  assert (Hi : ∀ w0 m0, marker_at w0 l m0 →
            instant l w0 = match current_action w0 with
                           | Ok a => (Ok tt, add_calls (instant_calls w0 m0 a) w0)
                           | Raise e => (Raise e, w0)
                           end).
  { intros w0 m0 H0. destruct (current_action w0) eqn:Ha.
    - by apply instant_ok.
    - by apply instant_no_action. }
  assert (Hc : ∀ w0 m0, marker_at w0 l m0 →
            counter l values w0 = match current_action w0 with
                                  | Ok a => (Ok tt, add_calls (counter_calls w0 m0 a values) w0)
                                  | Raise e => (Raise e, w0)
                                  end).
  { intros w0 m0 H0. destruct (current_action w0) eqn:Ha.
    - by apply counter_ok.
    - by apply counter_no_action. }
  rewrite (Hi _ _ Hm), (Hc _ _ Hm), (Hi _ _ Hm'), (Hc _ _ Hm'), Hcur.
  split_and!; try done; try (by destruct (current_action w)).
  - intros msg. destruct (current_action w) eqn:Ha; [done|].
    simpl. apply get_action_raise in Ha. by rewrite Ha.
  - intros msg. destruct (current_action w) eqn:Ha; [done|].
    simpl. apply get_action_raise in Ha. by rewrite Ha.
Qed.

Lemma instant_counter_stateless_witness :
  (instant 0 (start 0 (sample_world 1)).2).1 = (instant 0 (sample_world 1)).1 ∧
  calls (instant 0 (sample_world 1)).2
  = [(JSONTraceHandler,
      process_instant_event "fwd" [] (mkTimestamp 0 1 1) 1001 0 4242)].
Proof.
  split; [reflexivity|].
  destruct (instant_counter_stateless (sample_world 1) 0
              (new_marker "fwd" [WARMUP; ACTIVE] false false []) [] true (Some SKIP))
    as (-> & _); reflexivity.
Defined.

(** ** The decorator *)

(** On every path the decorated call does to the world what the body
    between [start()] and a guaranteed [finish()] does, and raises what it
    raises; of a value returned it keeps nothing. *)
Lemma wrapped_bracketed_finally l func args kwargs w :
  wrapped l func args kwargs w =
  (drop_value (bracketed_finally l func args kwargs w).1,
   (bracketed_finally l func args kwargs w).2).
Proof.
  unfold wrapped, with_statement, Marker_enter, Marker_exit, bracketed_finally,
    attempt, lift, raise, mbind, M_bind, mret, M_ret.
  destruct (start l w) as [[[]|e] w1]; simpl; [|done].
  destruct (func args kwargs w1) as [[v|e] w2]; simpl;
    destruct (finish l w2) as [[[]|e'] w3]; done.
Qed.

(** When the body returns, the guarantee makes no difference. *)
Lemma bracketed_finally_returns l func args kwargs w v w' :
  bracketed l func args kwargs w = (Ok v, w') →
  bracketed_finally l func args kwargs w = (Ok v, w').
Proof.
  unfold bracketed, bracketed_finally, attempt, lift, mbind, M_bind, mret, M_ret.
  destruct (start l w) as [[[]|e] w1]; simpl; [|done].
  destruct (func args kwargs w1) as [[v1|e] w2]; simpl; [|done].
  by destruct (finish l w2) as [[[]|e'] w3].
Qed.

Lemma wrapped_returns_none l func args kwargs w v w' :
  bracketed l func args kwargs w = (Ok v, w') →
  wrapped l func args kwargs w = (Ok PyNone, w').
Proof.
  intros H. rewrite wrapped_bracketed_finally.
  by rewrite (bracketed_finally_returns _ _ _ _ _ _ _ H).
Qed.

(** Each call of a decorated function goes through [start()] and
    [finish()] again: three calls in an ACTIVE batch, three pairs. *)
Example decorated_thrice :
  let f := wrapped 0 answer in
  calls ((f [] [] ;; f [] [] ;; f [] []) (sample_world 1)).2 =
  let ev := λ is_start,
    (JSONTraceHandler,
     process_duration_event "fwd" [] (mkTimestamp 0 1 1) is_start 1001 0 4242) in
  [ev true; ev false; ev true; ev false; ev true; ev false].
Proof. reflexivity. Qed.

(** C2 (the code departs from it): the function [answer] returns 42, and so
    does its body put by hand between [start()] and [finish()]; decorated
    with the marker, it makes the same calls and leaves the same world, but
    returns [None]. *)
Theorem wrapped_drops_return_value :
  (answer [] [] (sample_world 1)).1 = Ok (PyInt 42) ∧
  (bracketed 0 answer [] [] (sample_world 1)).1 = Ok (PyInt 42) ∧
  Marker_call 0 (Some answer) = TheFunction (wrapped 0 answer) ∧
  (wrapped 0 answer [] [] (sample_world 1)).1 = Ok PyNone ∧
  (wrapped 0 answer [] [] (sample_world 1)).2
    = (bracketed 0 answer [] [] (sample_world 1)).2.
Proof. split_and!; reflexivity. Qed.

(** * Further properties *)

(** ** The schedule of an epoch *)

Lemma get_action_raises_iff_aux p b :
  get_action p b = Raise ZeroDivisionError ↔
  cycle_len p = 0 ∧ (repeat p = 0 ∨ b < 0).
Proof.
  rewrite get_action_unfold.
  destruct (Z.eqb_spec (repeat p) 0) as [Hr|Hr];
    destruct (Z.leb_spec (cycle_len p * repeat p) b) as [Hb|Hb]; simpl;
    destruct (Z.eqb_spec (cycle_len p) 0) as [Hc|Hc];
    split; try done; try lia; try (intros [? ?]; lia).
Qed.

(** X1: [get_action] raises exactly when the cycle is empty and the
    exhaustion test does not answer first, that is when [repeat] is 0 or
    [batch_idx] is negative; what it raises is [ZeroDivisionError], and with
    a cycle length other than 0 it always returns an action. *)
Theorem get_action_raises_iff (p : Profiler) (batch_idx : Z) :
  (get_action p batch_idx = Raise ZeroDivisionError ↔
     cycle_len p = 0 ∧ (repeat p = 0 ∨ batch_idx < 0)) ∧
  (∀ e, get_action p batch_idx = Raise e → e = ZeroDivisionError) ∧
  (cycle_len p ≠ 0 → ∃ a, get_action p batch_idx = Ok a).
Proof.
  split_and!.
  - apply get_action_raises_iff_aux.
  - apply get_action_raise.
  - intros Hc. destruct (get_action p batch_idx) as [a|e] eqn:H; [by exists a|].
    pose proof (get_action_raise _ _ _ H) as ->.
    apply get_action_raises_iff_aux in H. lia.
Qed.

Lemma get_action_raises_iff_witness :
  (∃ a, get_action (Profiler_default "run") 3 = Ok a) ∧
  get_action (Profiler_init "run" [] 0 0 0 0 2 "t.json") (-1) = Raise ZeroDivisionError.
Proof.
  split.
  - apply (get_action_raises_iff (Profiler_default "run") 3). discriminate.
  - apply (get_action_raises_iff (Profiler_init "run" [] 0 0 0 0 2 "t.json") (-1)).
    split; [reflexivity|right; reflexivity].
Defined.


Lemma filter_none {A} (P : A → Prop) `{∀ x, Decision (P x)} (l : list A) :
  Forall (λ x, ¬ P x) l → filter P l = [].
Proof.
  induction 1 as [|x l Hx _ IH]; [done|]. by rewrite filter_cons_False.
Qed.

Lemma filter_all {A} (P : A → Prop) `{∀ x, Decision (P x)} (l : list A) :
  Forall P l → filter P l = l.
Proof.
  induction 1 as [|x l Hx _ IH]; [done|]. by rewrite filter_cons_True, IH.
Qed.

(** Filtering a run of integers by a property that holds on an interval of it. *)
Lemma filter_seqZ_interval (P : Z → Prop) `{∀ x, Decision (P x)} m n lo hi :
  m <= lo → lo <= hi → hi <= m + n →
  (∀ x, m <= x < m + n → (P x ↔ lo <= x < hi)) →
  filter P (seqZ m n) = seqZ lo (hi - lo).
Proof.
  intros Hlo Hhi Hn HP.
  replace n with ((lo - m) + ((hi - lo) + (m + n - hi))) by lia.
  rewrite seqZ_app, seqZ_app by lia.
  rewrite !filter_app.
  replace (m + (lo - m)) with lo by lia.
  replace (lo + (hi - lo)) with hi by lia.
  rewrite (filter_none P (seqZ m _)), (filter_all P (seqZ lo _)), (filter_none P (seqZ hi _)).
  - by rewrite app_nil_r.
  - apply Forall_seqZ. intros x Hx. rewrite HP by lia. lia.
  - apply Forall_seqZ. intros x Hx. rewrite HP by lia. lia.
  - apply Forall_seqZ. intros x Hx. rewrite HP by lia. lia.
Qed.

Lemma get_action_in_cycle p k x :
  0 < cycle_len p → 0 <= x < cycle_len p →
  (repeat p = 0 ∨ k < repeat p) →
  get_action p (k * cycle_len p + x) = Ok (phase p x).
Proof.
  intros Hc Hx Hk. rewrite get_action_unfold.
  assert (Hmod : (k * cycle_len p + x) `mod` cycle_len p = x).
  { symmetry. apply (Z.mod_unique _ _ k); lia. }
  rewrite Hmod.
  destruct (Z.eqb_spec (cycle_len p) 0); [lia|].
  destruct (Z.eqb_spec (repeat p) 0) as [Hr|Hr]; [done|]. simpl.
  destruct (Z.leb_spec (cycle_len p * repeat p) (k * cycle_len p + x)); [|done].
  destruct Hk as [?|Hk]; [done|]. nia.
Qed.

Lemma phase_window p x :
  0 <= wait p → 0 <= warmup p → 0 <= active p → 0 <= x < cycle_len p →
  (phase p x = SKIP ↔ 0 <= x < wait p) ∧
  (phase p x = WARMUP ↔ wait p <= x < wait p + warmup p) ∧
  (phase p x = ACTIVE ↔ wait p + warmup p <= x < cycle_len p).
Proof.
  intros Hw Hu Ha Hx. unfold phase, cycle_len in *.
  destruct (Z.ltb_spec x (wait p)); [|destruct (Z.ltb_spec x (wait p + warmup p))];
    split_and!; split; try done; lia.
Qed.

(** The batches of cycle [k] for which the answer is WARMUP, and ACTIVE. *)
Lemma cycle_batches p k :
  0 <= wait p → 0 <= warmup p → 0 <= active p → 0 < cycle_len p →
  (repeat p = 0 ∨ k < repeat p) →
  filter (λ b, get_action p b = Ok WARMUP) (seqZ (k * cycle_len p) (cycle_len p))
    = seqZ (k * cycle_len p + wait p) (warmup p) ∧
  filter (λ b, get_action p b = Ok ACTIVE) (seqZ (k * cycle_len p) (cycle_len p))
    = seqZ (k * cycle_len p + wait p + warmup p) (active p).
Proof.
  intros Hw Hu Ha Hc Hk.
  assert (Hin : ∀ b, k * cycle_len p <= b < k * cycle_len p + cycle_len p →
            get_action p b = Ok (phase p (b - k * cycle_len p)) ∧
            0 <= b - k * cycle_len p < cycle_len p).
  { intros b Hb. split; [|lia].
    replace b with (k * cycle_len p + (b - k * cycle_len p)) at 1 by lia.
    apply get_action_in_cycle; [done|lia|done]. }
  split.
  - rewrite (filter_seqZ_interval _ _ _ (k * cycle_len p + wait p)
               (k * cycle_len p + wait p + warmup p)); unfold cycle_len in *; try lia.
    + f_equal. lia.
    + intros b Hb. destruct (Hin b Hb) as [-> Hx].
      destruct (phase_window p _ Hw Hu Ha Hx) as (_ & HW & _).
      split; [intros [= E]; apply HW in E; lia|intros E; f_equal; apply HW; lia].
  - rewrite (filter_seqZ_interval _ _ _ (k * cycle_len p + wait p + warmup p)
               (k * cycle_len p + cycle_len p)); unfold cycle_len in *; try lia.
    + f_equal. lia.
    + intros b Hb. destruct (Hin b Hb) as [-> Hx].
      destruct (phase_window p _ Hw Hu Ha Hx) as (_ & _ & HA).
      unfold cycle_len in HA.
      split; [intros [= E]; apply HA in E; lia|intros E; f_equal; apply HA; lia].
Qed.

Lemma first_cycles_count p (K : nat) :
  0 <= wait p → 0 <= warmup p → 0 <= active p → 0 < cycle_len p →
  (repeat p = 0 ∨ Z.of_nat K <= repeat p) →
  length (batches_with p WARMUP (Z.of_nat K * cycle_len p)) = (K * Z.to_nat (warmup p))%nat ∧
  length (batches_with p ACTIVE (Z.of_nat K * cycle_len p)) = (K * Z.to_nat (active p))%nat.
Proof.
  intros Hw Hu Ha Hc. unfold batches_with. induction K as [|K IH]; intros HK.
  - done.
  - destruct IH as [IHw IHa]; [lia|].
    replace (Z.of_nat (S K) * cycle_len p)
      with (Z.of_nat K * cycle_len p + cycle_len p) by lia.
    rewrite seqZ_app by lia. rewrite !filter_app, !length_app, IHw, IHa.
    rewrite Z.add_0_l.
    destruct (cycle_batches p (Z.of_nat K) Hw Hu Ha Hc) as [-> ->]; [lia|].
    rewrite !length_seqZ. lia.
Qed.

(** X2: with non-negative [wait], [warmup] and [active], a cycle of
    positive length and [repeat > 0], an epoch of at least
    [cycle_len * repeat] batches has exactly [warmup * repeat] WARMUP batches
    and [active * repeat] ACTIVE batches. *)
Theorem recorded_batches_per_epoch (p : Profiler) (n : Z) :
  0 <= wait p → 0 <= warmup p → 0 <= active p → 0 < cycle_len p →
  0 < repeat p → cycle_len p * repeat p <= n →
  length (batches_with p WARMUP n) = Z.to_nat (warmup p * repeat p) ∧
  length (batches_with p ACTIVE n) = Z.to_nat (active p * repeat p).
Proof.
  intros Hw Hu Ha Hc Hr Hn.
  destruct (first_cycles_count p (Z.to_nat (repeat p)) Hw Hu Ha Hc) as [HW HA]; [lia|].
  rewrite Z2Nat.id in HW, HA by lia.
  unfold batches_with in *.
  replace n with (repeat p * cycle_len p + (n - repeat p * cycle_len p)) by lia.
  rewrite seqZ_app by lia. rewrite !filter_app, !length_app, HW, HA, Z.add_0_l.
  assert (Hskip : ∀ a, a ≠ SKIP →
            filter (λ b, get_action p b = Ok a)
              (seqZ (repeat p * cycle_len p) (n - repeat p * cycle_len p)) = []).
  { intros a Hne. apply filter_none, Forall_seqZ. intros b Hb.
    rewrite get_action_unfold.
    destruct (Z.eqb_spec (repeat p) 0); [lia|].
    destruct (Z.leb_spec (cycle_len p * repeat p) b); [|lia].
    simpl. congruence. }
  rewrite !Hskip by done. simpl. split; nia.
Qed.

Lemma recorded_batches_per_epoch_witness :
  length (batches_with (Profiler_init "run" [] 0 2 1 4 3 "t.json") ACTIVE 30) = 12%nat.
Proof.
  apply (recorded_batches_per_epoch (Profiler_init "run" [] 0 2 1 4 3 "t.json") 30);
    vm_compute; congruence.
Defined.

(** X3: with [wait >= 0] and [warmup >= 1], a batch whose action is ACTIVE
    comes right after a batch whose action is WARMUP or ACTIVE: recording
    never starts straight out of SKIP. *)
Theorem active_follows_warmup (p : Profiler) (batch_idx : Z) :
  0 <= wait p → 1 <= warmup p →
  get_action p batch_idx = Ok ACTIVE →
  get_action p (batch_idx - 1) = Ok WARMUP ∨ get_action p (batch_idx - 1) = Ok ACTIVE.
Proof.
  intros Hw Hu H. rewrite get_action_unfold in H. rewrite get_action_unfold.
  destruct (negb (repeat p =? 0) && (cycle_len p * repeat p <=? batch_idx)) eqn:Hex;
    [done|].
  destruct (Z.eqb_spec (cycle_len p) 0) as [Hc|Hc]; [done|].
  injection H as H. unfold phase in H.
  destruct (Z.ltb_spec (batch_idx `mod` cycle_len p) (wait p)); [done|].
  destruct (Z.ltb_spec (batch_idx `mod` cycle_len p) (wait p + warmup p)); [done|].
  assert (Hpos : 0 < cycle_len p).
  { destruct (Z.lt_trichotomy (cycle_len p) 0) as [Hneg|[?|?]]; [|done..].
    pose proof (Z.mod_neg_bound batch_idx (cycle_len p) Hneg). lia. }
  pose proof (Z.mod_pos_bound batch_idx (cycle_len p) Hpos) as Hb.
  assert (Hmod : (batch_idx - 1) `mod` cycle_len p = batch_idx `mod` cycle_len p - 1).
  { symmetry. apply (Z.mod_unique _ _ (batch_idx `div` cycle_len p)); [lia|].
    pose proof (Z.div_mod batch_idx (cycle_len p) Hc). lia. }
  assert (Hex' : negb (repeat p =? 0) && (cycle_len p * repeat p <=? batch_idx - 1) = false).
  { apply andb_false_iff in Hex as [Hex|Hex]; apply andb_false_iff; [by left|right].
    apply Z.leb_gt in Hex. apply Z.leb_gt. lia. }
  rewrite Hex', Hmod. unfold phase.
  destruct (Z.ltb_spec (batch_idx `mod` cycle_len p - 1) (wait p)); [lia|].
  destruct (_ <? wait p + warmup p); [by left|by right].
Qed.

Lemma active_follows_warmup_witness :
  get_action (Profiler_default "run") (2 - 1) = Ok WARMUP ∨
  get_action (Profiler_default "run") (2 - 1) = Ok ACTIVE.
Proof.
  apply (active_follows_warmup (Profiler_default "run") 2); vm_compute; congruence.
Defined.

(** ** The trace of a run is balanced *)

Lemma duration_calls_app h n s cs1 cs2 :
  duration_calls h n s (cs1 ++ cs2) = (duration_calls h n s cs1 + duration_calls h n s cs2)%nat.
Proof. unfold duration_calls. by rewrite filter_app, length_app. Qed.

Lemma duration_calls_fan_out h n s w ev :
  duration_calls h n s (fan_out w ev) =
  if is_duration_call h n s (h, ev) then registrations h (_event_handlers (profiler w))
  else 0%nat.
Proof.
  unfold duration_calls, fan_out, registrations.
  induction (_event_handlers (profiler w)) as [|h' hs IH];
    [by destruct (is_duration_call _ _ _ _)|].
  cbn [map]. rewrite !filter_cons.
  assert (Hh : is_duration_call h n s (h', ev)
               = bool_decide (h' = h) && is_duration_call h n s (h, ev)).
  { destruct ev; simpl; rewrite ?andb_false_r; [|done..].
    rewrite (bool_decide_eq_true_2 (h = h)) by done.
    by destruct (bool_decide (h' = h)). }
  destruct (decide (h' = h)) as [->|Hne].
  - destruct (is_duration_call h n s (h, ev)) eqn:E.
    + rewrite decide_True by done. simpl. by rewrite IH.
    + rewrite decide_False by congruence. by rewrite IH.
  - rewrite decide_False; [|rewrite Hh, bool_decide_eq_false_2 by done; done].
    rewrite IH. done.
Qed.

Lemma duration_calls_instants h n s w m :
  duration_calls h n s (fan_out w (instant_of w m)) = 0%nat.
Proof. by rewrite duration_calls_fan_out. Qed.

Lemma duration_calls_counters h n s w m vs :
  duration_calls h n s (fan_out w (counter_of w m vs)) = 0%nat.
Proof. by rewrite duration_calls_fan_out. Qed.

Lemma duration_calls_duration h n s w m s' :
  duration_calls h n s (fan_out w (duration_of w m s')) =
  if bool_decide (name m = n) && bool_decide (s' = s)
  then registrations h (_event_handlers (profiler w)) else 0%nat.
Proof.
  rewrite duration_calls_fan_out. unfold duration_of. simpl.
  by rewrite bool_decide_eq_true_2.
Qed.

Lemma open_markers_app n h1 h2 :
  open_markers n (h1 ++ h2) = (open_markers n h1 + open_markers n h2)%nat.
Proof. unfold open_markers. by rewrite filter_app, length_app. Qed.

Lemma open_markers_cons n m h :
  open_markers n (m :: h)
  = (one_if (bool_decide (name m = n) && recording m) + open_markers n h)%nat.
Proof.
  unfold open_markers. rewrite filter_cons.
  destruct (decide (name m = n ∧ recording m = true)) as [[Hn Hr]|Hno].
  - by rewrite bool_decide_eq_true_2, Hr.
  - destruct (bool_decide (name m = n) && recording m) eqn:E; [|done].
    apply andb_true_iff in E as [E1%bool_decide_eq_true E2]. tauto.
Qed.

Lemma open_markers_insert n h l m m' :
  h !! l = Some m →
  (open_markers n (<[l := m']> h) + one_if (bool_decide (name m = n) && recording m))%nat
  = (open_markers n h + one_if (bool_decide (name m' = n) && recording m'))%nat.
Proof.
  intros Hl.
  rewrite <- (take_drop_middle h l m Hl) at 2.
  rewrite insert_take_drop by (by eapply lookup_lt_Some).
  rewrite !open_markers_app, !open_markers_cons. lia.
Qed.

Lemma balanced_add_calls evs w :
  (∀ h n s, duration_calls h n s evs = 0%nat) → balanced w → balanced (add_calls evs w).
Proof.
  intros Hq Hb h n. simpl. rewrite !duration_calls_app, !Hq, (Hb h n). lia.
Qed.

Lemma balanced_after_start w l m a :
  marker_at w l m → _started m = false → balanced w → balanced (after_start w l m a).
Proof.
  intros Hm Hs Hb h n. simpl. rewrite !duration_calls_app, (Hb h n).
  pose proof (open_markers_insert n (heap w) l m
                (with_started true (with_action_at_start (Some a) m)) Hm) as Hopen.
  unfold recording in Hopen. simpl in Hopen. rewrite Hs in Hopen.
  rewrite andb_false_r in Hopen. simpl in Hopen.
  unfold start_calls. simpl.
  destruct (py_in a (actions m)) eqn:Hin.
  - rewrite !duration_calls_app, !duration_calls_duration.
    assert (Hi : ∀ s, duration_calls h n s
               (if record_instant_on_start m then fan_out w (instant_of w m) else []) = 0%nat).
    { intros s. destruct (record_instant_on_start m); [apply duration_calls_instants|done]. }
    rewrite !Hi. rewrite andb_false_r.
    destruct (bool_decide (name m = n)); simpl in *; nia.
  - rewrite andb_false_r in Hopen. simpl in Hopen.
    change (duration_calls h n true []) with 0%nat.
    change (duration_calls h n false []) with 0%nat. nia.
Qed.

Lemma balanced_after_finish w l m :
  marker_at w l m → _started m = true → balanced w → balanced (after_finish w l m).
Proof.
  intros Hm Hs Hb h n. simpl. rewrite !duration_calls_app, (Hb h n).
  pose proof (open_markers_insert n (heap w) l m (with_started false m) Hm) as Hopen.
  unfold recording in Hopen. simpl in Hopen. rewrite Hs in Hopen.
  rewrite andb_false_r in Hopen. simpl in Hopen.
  unfold finish_calls.
  destruct (action_in (_action_at_start m) (actions m)) eqn:Hin.
  - rewrite !duration_calls_app, !duration_calls_duration.
    assert (Hi : ∀ s, duration_calls h n s
               (if record_instant_on_finish m then fan_out w (instant_of w m) else []) = 0%nat).
    { intros s. destruct (record_instant_on_finish m); [apply duration_calls_instants|done]. }
    rewrite !Hi. rewrite andb_false_r.
    destruct (bool_decide (name m = n)); simpl in *; nia.
  - rewrite andb_false_r in Hopen. simpl in Hopen.
    change (duration_calls h n true []) with 0%nat.
    change (duration_calls h n false []) with 0%nat. nia.
Qed.

Lemma balanced_categories w l m cats :
  marker_at w l m → balanced w →
  balanced (set_heap (<[l := with_categories cats m]> (heap w)) w).
Proof.
  intros Hm Hb h n. simpl. rewrite (Hb h n).
  pose proof (open_markers_insert n (heap w) l m (with_categories cats m) Hm) as Hopen.
  unfold recording in Hopen. simpl in Hopen. nia.
Qed.

Lemma balanced_alloc w m p' :
  _event_handlers p' = _event_handlers (profiler w) →
  _started m = false → balanced w →
  balanced (mkWorld (host w) (heap w ++ [m]) p' (calls w)).
Proof.
  intros Hh Hs Hb h n. simpl. rewrite Hh, (Hb h n), open_markers_app, open_markers_cons.
  unfold recording. rewrite Hs, andb_false_r. simpl.
  change (open_markers n []) with 0%nat. lia.
Qed.

Lemma instant_quiet w l :
  ∃ evs, (instant l w).2 = add_calls evs w ∧ ∀ h n s, duration_calls h n s evs = 0%nat.
Proof.
  destruct (current_action w) as [a|e] eqn:Ha.
  - destruct (heap w !! l) as [m|] eqn:Hm.
    + exists (instant_calls w m a). rewrite (instant_ok _ _ _ _ Hm Ha).
      split; [done|]. intros h n s. unfold instant_calls.
      destruct (py_in a (actions m)); [apply duration_calls_instants|done].
    + exists []. by rewrite (instant_dangling _ _ _ Ha Hm), add_calls_nil.
  - exists []. by rewrite (instant_no_action _ _ _ Ha), add_calls_nil.
Qed.

Lemma counter_quiet w l vs :
  ∃ evs, (counter l vs w).2 = add_calls evs w ∧ ∀ h n s, duration_calls h n s evs = 0%nat.
Proof.
  destruct (current_action w) as [a|e] eqn:Ha.
  - destruct (heap w !! l) as [m|] eqn:Hm.
    + exists (counter_calls w m a vs). rewrite (counter_ok _ _ _ _ _ Hm Ha).
      split; [done|]. intros h n s. unfold counter_calls.
      destruct (py_in a (actions m)); [apply duration_calls_counters|done].
    + exists []. by rewrite (counter_dangling _ _ _ _ Ha Hm), add_calls_nil.
  - exists []. by rewrite (counter_no_action _ _ _ _ Ha), add_calls_nil.
Qed.

Lemma balanced_run_op o w : balanced w → balanced (run_op o w).2.
Proof.
  intros Hb. destruct o as [n acts s f cats|n acts s f cats|l|l|l|l vs|h]; simpl.
  - rewrite snd_then_ret.
    destruct (marker_cases w n acts s f cats)
      as [->|[(l & m & _ & Hm & ->)|(_ & ->)]]; [done| |].
    + by apply balanced_categories.
    + by apply balanced_alloc.
  - rewrite snd_then_ret.
    destruct (Marker_init_cases w n acts s f cats) as [->| ->]; [done|].
    by apply balanced_alloc.
  - destruct (start_cases w l) as [->|(m & a & Hm & Hs & _ & ->)]; [done|].
    by apply balanced_after_start.
  - destruct (finish_cases w l) as [->|(m & Hm & Hs & ->)]; [done|].
    by apply balanced_after_finish.
  - destruct (instant_quiet w l) as (evs & -> & Hq). by apply balanced_add_calls.
  - destruct (counter_quiet w l vs) as (evs & -> & Hq). by apply balanced_add_calls.
  - done.
Qed.

Lemma balanced_run ops w : balanced w → balanced (run ops w).
Proof.
  revert w. induction ops as [|o ops IH]; intros w Hb; [done|].
  simpl. by apply IH, balanced_run_op.
Qed.




(** ** Fan-out, creation and the reachable worlds *)




(** X6: [Profiler.marker] for a name that is not registered makes a new
    object at a fresh address, with the given arguments and not started,
    and registers it; every other registration and object, the handlers and
    the calls made so far stay as they are. *)
Theorem marker_creates_unregistered (w : World) (n : string)
    (acts : list ProfilerAction) (on_start on_finish : bool) (cats : list string) :
  _names_to_markers (profiler w) !! n = None →
  ∃ w', marker n acts on_start on_finish cats w = (Ok (length (heap w)), w') ∧
    heap w !! length (heap w) = None ∧
    marker_at w' (length (heap w)) (mkMarker n acts cats on_start on_finish false None) ∧
    registered w' n (length (heap w)) ∧
    (∀ n', n' ≠ n →
       _names_to_markers (profiler w') !! n' = _names_to_markers (profiler w) !! n') ∧
    (∀ l m, marker_at w l m → marker_at w' l m) ∧
    length (heap w') = S (length (heap w)) ∧
    calls w' = calls w ∧ host w' = host w ∧
    _event_handlers (profiler w') = _event_handlers (profiler w).
Proof.
  intros Hn. eexists. split; [by apply marker_create|].
  split_and!; try done.
  - by apply lookup_ge_None_2.
  - unfold marker_at. simpl. by apply list_lookup_middle.
  - apply lookup_insert_eq.
  - intros n' Hne. simpl. by rewrite lookup_insert_ne.
  - intros l m Hm. by apply lookup_app_l_Some.
  - simpl. rewrite length_app. simpl. lia.
Qed.

Lemma marker_creates_unregistered_witness :
  ∃ w', marker "bwd" [ACTIVE] true false ["step"] (sample_world 0) = (Ok 1%nat, w') ∧
        marker_at w' 1 (mkMarker "bwd" [ACTIVE] ["step"] true false false None) ∧
        registered w' "fwd" 0.
Proof.
  destruct (marker_creates_unregistered (sample_world 0) "bwd" [ACTIVE] true false ["step"])
    as (w' & Hcall & _ & Hat & _ & Hother & _); [reflexivity|].
  exists w'. split_and!; [exact Hcall|exact Hat|].
  unfold registered. rewrite Hother by discriminate. reflexivity.
Defined.


Lemma marker_ok_of_registry_ok w n acts on_start on_finish cats :
  registry_ok w →
  ∃ l w' m, marker n acts on_start on_finish cats w = (Ok l, w') ∧
    registered w' n l ∧ marker_at w' l m ∧ name m = n ∧ categories m = cats.
Proof.
  intros Hok. destruct (_names_to_markers (profiler w) !! n) as [l|] eqn:Hr.
  - destruct (Hok n l Hr) as (m & Hm & Hname).
    exists l, (set_heap (<[l := with_categories cats m]> (heap w)) w),
      (with_categories cats m).
    split_and!; try done.
    + by apply marker_existing.
    + by eapply marker_at_insert.
  - exists (length (heap w)),
      (after_create w n (new_marker n acts on_start on_finish cats)),
      (new_marker n acts on_start on_finish cats).
    split_and!; try done.
    + by apply marker_create.
    + apply lookup_insert_eq.
    + unfold marker_at. simpl. by apply list_lookup_middle.
Qed.

(** X7: in every world a run from a new profiler reaches, each registered
    name refers to a marker object of that name, so [Profiler.marker] never
    raises: it returns a registered marker of the name asked for, with the
    categories asked for. *)
Theorem marker_never_raises (h : Host) (p : Profiler) (ops : list Op) (n : string)
    (acts : list ProfilerAction) (on_start on_finish : bool) (cats : list string) :
  _names_to_markers p = ∅ →
  let w := run ops (new_world h p) in
  registry_ok w ∧
  ∃ l w' m, marker n acts on_start on_finish cats w = (Ok l, w') ∧
    registered w' n l ∧ marker_at w' l m ∧ name m = n ∧ categories m = cats.
Proof.
  intros He w.
  assert (Hok : registry_ok w) by (by apply registry_ok_run, registry_ok_new_world).
  split; [done|]. by apply marker_ok_of_registry_ok.
Qed.

Lemma marker_never_raises_witness :
  ∃ l w' m,
    marker "fwd" [ACTIVE] true false ["step"]
      (run [op_marker "bwd" [] false false []; op_start 0; op_finish 7]
         (new_world (host_at 0) (Profiler_default "run"))) = (Ok l, w') ∧
    registered w' "fwd" l ∧ marker_at w' l m ∧ name m = "fwd" ∧ categories m = ["step"].
Proof.
  apply (marker_never_raises (host_at 0) (Profiler_default "run")
           [op_marker "bwd" [] false false []; op_start 0; op_finish 7]).
  reflexivity.
Defined.

(** X8: in every world a run from a new profiler reaches, two different
    registered names never refer to one marker object. *)
Theorem distinct_names_distinct_markers (h : Host) (p : Profiler) (ops : list Op)
    (n1 n2 : string) (l1 l2 : loc) :
  _names_to_markers p = ∅ →
  registered (run ops (new_world h p)) n1 l1 →
  registered (run ops (new_world h p)) n2 l2 →
  n1 ≠ n2 → l1 ≠ l2.
Proof.
  intros He H1 H2 Hne ->.
  assert (Hok : registry_ok (run ops (new_world h p)))
    by (by apply registry_ok_run, registry_ok_new_world).
  destruct (Hok _ _ H1) as (m1 & Hm1 & Hn1).
  destruct (Hok _ _ H2) as (m2 & Hm2 & Hn2).
  unfold marker_at in *. congruence.
Qed.

Lemma distinct_names_distinct_markers_witness :
  registered
    (run [op_marker "fwd" [] false false []; op_marker "bwd" [] false false []]
       (new_world (host_at 0) (Profiler_default "run"))) "fwd" 0 ∧
  registered
    (run [op_marker "fwd" [] false false []; op_marker "bwd" [] false false []]
       (new_world (host_at 0) (Profiler_default "run"))) "bwd" 1 ∧
  (0 ≠ 1)%nat.
Proof.
  split; [reflexivity|]. split; [reflexivity|].
  apply (distinct_names_distinct_markers (host_at 0) (Profiler_default "run")
           [op_marker "fwd" [] false false []; op_marker "bwd" [] false false []]
           "fwd" "bwd" 0 1); [reflexivity|reflexivity|reflexivity|discriminate].
Defined.

(** X9: constructing a [Marker] directly for a name that is not registered
    succeeds and registers nothing; [Profiler.marker] for that name then
    makes a second object of the same name and registers that one, after
    which constructing directly raises. *)
Theorem direct_construction_is_not_registered (w : World) (n : string)
    (acts acts' : list ProfilerAction) (on_start on_finish on_start' on_finish' : bool)
    (cats cats' : list string) :
  _names_to_markers (profiler w) !! n = None →
  ∃ w1 w2,
    Marker_init n acts on_start on_finish cats w = (Ok (length (heap w)), w1) ∧
    profiler w1 = profiler w ∧
    marker n acts' on_start' on_finish' cats' w1 = (Ok (S (length (heap w))), w2) ∧
    marker_at w2 (length (heap w)) (new_marker n acts on_start on_finish cats) ∧
    marker_at w2 (S (length (heap w))) (new_marker n acts' on_start' on_finish' cats') ∧
    registered w2 n (S (length (heap w))) ∧
    Marker_init n acts on_start on_finish cats w2
      = (Raise (RuntimeError instantiated_directly_msg), w2).
Proof.
  intros Hn.
  set (m1 := new_marker n acts on_start on_finish cats).
  set (m2 := new_marker n acts' on_start' on_finish' cats').
  set (w1 := set_heap (heap w ++ [m1]) w).
  assert (Hlen : length (heap w1) = S (length (heap w))).
  { simpl. rewrite length_app. simpl. lia. }
  exists w1, (after_create w1 n m2).
  split_and!.
  - by apply Marker_init_fresh.
  - done.
  - rewrite <- Hlen. by apply marker_create.
  - unfold marker_at. simpl. apply lookup_app_l_Some. by apply list_lookup_middle.
  - unfold marker_at. rewrite <- Hlen. simpl. by apply list_lookup_middle.
  - rewrite <- Hlen. apply lookup_insert_eq.
  - apply (Marker_init_duplicate _ _ _ _ _ _ (length (heap w1))).
    + apply lookup_insert_eq.
    + simpl. rewrite !length_app. simpl. lia.
Qed.

Lemma direct_construction_is_not_registered_witness :
  (marker "fwd" [ACTIVE] false false []
     (Marker_init "fwd" [WARMUP] false false []
        (new_world (host_at 0) (Profiler_default "run"))).2).1 = Ok 1%nat.
Proof.
  destruct (direct_construction_is_not_registered
              (new_world (host_at 0) (Profiler_default "run")) "fwd"
              [WARMUP] [ACTIVE] false false false false [] [])
    as (w1 & w2 & H1 & _ & H2 & _); [reflexivity|].
  rewrite H1. cbn [snd]. by rewrite H2.
Defined.






(** X12: with an empty cycle and [repeat = 0], [start()], [instant()] and
    [counter()] raise [ZeroDivisionError] and change nothing; a [with] block
    and a decorated function raise it too, without running the body. *)
Theorem empty_cycle_blocks_markers (w : World) (l : loc) (m : Marker)
    (body : M unit) (func : PyFunc) (args : list Value) (kwargs : list (string * Value))
    (values : list (string * Number)) :
  cycle_len (profiler w) = 0 → repeat (profiler w) = 0 →
  marker_at w l m → _started m = false →
  start l w = (Raise ZeroDivisionError, w) ∧
  instant l w = (Raise ZeroDivisionError, w) ∧
  counter l values w = (Raise ZeroDivisionError, w) ∧
  with_statement l body w = (Raise ZeroDivisionError, w) ∧
  wrapped l func args kwargs w = (Raise ZeroDivisionError, w).
Proof.
  intros Hc Hr Hm Hs.
  assert (Ha : current_action w = Raise ZeroDivisionError).
  { by apply get_action_zero_cycle_no_repeat. }
  assert (Hstart : start l w = (Raise ZeroDivisionError, w)) by (by eapply start_no_action).
  split_and!.
  - done.
  - by apply instant_no_action.
  - by apply counter_no_action.
  - unfold with_statement, Marker_enter, mbind, M_bind. by rewrite Hstart.
  - unfold wrapped, with_statement, Marker_enter, mbind, M_bind. by rewrite Hstart.
Qed.

Lemma empty_cycle_blocks_markers_witness :
  wrapped 0 answer [] []
    (marker_default "fwd"
       (new_world (host_at 3) (Profiler_init "run" [] 0 0 0 0 0 "t.json"))).2
  = (Raise ZeroDivisionError,
     (marker_default "fwd"
        (new_world (host_at 3) (Profiler_init "run" [] 0 0 0 0 0 "t.json"))).2).
Proof.
  apply (empty_cycle_blocks_markers _ 0
           (new_marker "fwd" [WARMUP; ACTIVE] false false []) (mret tt) answer [] [] []);
    reflexivity.
Defined.

(** ** What a run keeps *)

Lemma with_names_to_markers_id p : with_names_to_markers (_names_to_markers p) p = p.
Proof. by destruct p. Qed.

Lemma run_op_step o w : step_shape w (run_op o w).2.
Proof.
  destruct o as [n acts s f cats|n acts s f cats|l|l|l|l vs|h]; simpl.
  - rewrite snd_then_ret.
    destruct (marker_cases w n acts s f cats)
      as [->|[(l & m & _ & Hm & ->)|(Hnone & ->)]].
    + constructor.
    + replace (set_heap _ w)
        with (mkWorld (host w) (<[l := with_categories cats m]> (heap w)) (profiler w)
                (calls w ++ [])) by (unfold set_heap; by rewrite app_nil_r).
      eapply shape_update; [exact Hm|constructor].
    + apply shape_alloc; [done|]. by apply insert_subseteq.
  - rewrite snd_then_ret.
    destruct (Marker_init_cases w n acts s f cats) as [->| ->]; [constructor|].
    pose proof (shape_alloc w (new_marker n acts s f cats)
                  (_names_to_markers (profiler w)) eq_refl (reflexivity _)) as H.
    by rewrite with_names_to_markers_id in H.
  - destruct (start_cases w l) as [->|(m & a & Hm & _ & _ & ->)]; [constructor|].
    eapply shape_update; [exact Hm|constructor].
  - destruct (finish_cases w l) as [->|(m & Hm & _ & ->)]; [constructor|].
    eapply shape_update; [exact Hm|constructor].
  - destruct (instant_cases w l) as [evs ->]. constructor.
  - destruct (counter_cases w l vs) as [evs ->]. constructor.
  - constructor.
Qed.

(** A relation that holds over each step holds over a run. *)
Lemma run_relates (R : World → World → Prop) ops w :
  (∀ w0, R w0 w0) → (∀ w0 w1 w2, R w0 w1 → R w1 w2 → R w0 w2) →
  (∀ w0 w1, step_shape w0 w1 → R w0 w1) →
  R w (run ops w).
Proof.
  intros Hrefl Htrans Hstep. revert w.
  induction ops as [|o ops IH]; intros w; [apply Hrefl|].
  simpl. eapply Htrans; [apply Hstep, run_op_step|apply IH].
Qed.

(** X13: no call changes the profiler's handler list, [skip_first],
    [wait], [warmup], [active], [repeat], [merged_trace_file] or [_action]:
    after any run [get_action] answers as before, and the registry has only
    grown. *)
Theorem run_keeps_configuration (ops : list Op) (w : World) :
  let p := profiler w in
  let p' := profiler (run ops w) in
  _event_handlers p' = _event_handlers p ∧
  skip_first p' = skip_first p ∧ wait p' = wait p ∧ warmup p' = warmup p ∧
  active p' = active p ∧ repeat p' = repeat p ∧
  merged_trace_file p' = merged_trace_file p ∧ _action p' = _action p ∧
  (∀ batch_idx, get_action p' batch_idx = get_action p batch_idx) ∧
  _names_to_markers p ⊆ _names_to_markers p'.
Proof.
  intros p p'.
  assert (H : ∃ r, p' = with_names_to_markers r p ∧ _names_to_markers p ⊆ r).
  { unfold p, p'.
    apply (run_relates (λ w0 w1, ∃ r, profiler w1 = with_names_to_markers r (profiler w0)
                                      ∧ _names_to_markers (profiler w0) ⊆ r)).
    - intros w0. exists (_names_to_markers (profiler w0)).
      by rewrite with_names_to_markers_id.
    - intros w0 w1 w2 (r1 & E1 & S1) (r2 & E2 & S2). exists r2.
      rewrite E2, E1. split; [done|]. rewrite E1 in S2. simpl in S2.
      by transitivity r1.
    - intros w0 w1 Hs. destruct Hs; simpl;
        try (exists (_names_to_markers (profiler w0));
             by rewrite with_names_to_markers_id).
      by eexists. }
  destruct H as (r & -> & Hsub). by split_and!.
Qed.


(** X15: a marker object stays at its address for the whole run with the
    [name], [actions], [record_instant_on_start] and
    [record_instant_on_finish] it was constructed with. *)
Theorem run_keeps_markers (ops : list Op) (w : World) (l : loc) (m : Marker) :
  marker_at w l m →
  ∃ m', marker_at (run ops w) l m' ∧ same_construction m m'.
Proof.
  revert l m.
  apply (run_relates (λ w0 w1, ∀ l m, marker_at w0 l m →
                         ∃ m', marker_at w1 l m' ∧ same_construction m m')).
  - intros w0 l m Hm. by exists m.
  - intros w0 w1 w2 H1 H2 l m Hm.
    destruct (H1 l m Hm) as (m1 & Hm1 & S1).
    destruct (H2 l m1 Hm1) as (m2 & Hm2 & S2).
    exists m2. split; [done|]. unfold same_construction in *.
    destruct S1 as (? & ? & ? & ?), S2 as (? & ? & ? & ?). split_and!; congruence.
  - intros w0 w1 Hs l m Hm. destruct Hs as [| | |l0 m0 m0' evs Hm0 Hup|]; simpl;
      try (by exists m).
    + unfold marker_at in *. simpl. destruct (decide (l0 = l)) as [->|Hne].
      * exists m0'. rewrite list_lookup_insert_eq by (by eapply lookup_lt_Some).
        split; [done|]. assert (m0 = m) as -> by congruence. by destruct Hup.
      * exists m. by rewrite list_lookup_insert_ne.
    + exists m. split; [|done]. by apply lookup_app_l_Some.
Qed.

Lemma run_keeps_markers_witness :
  ∃ m', marker_at (run [op_start 0; op_host (host_at 2); op_marker "fwd" [] true true ["x"]]
                     (sample_world 1)) 0 m' ∧
        same_construction (new_marker "fwd" [WARMUP; ACTIVE] false false []) m'.
Proof.
  apply (run_keeps_markers _ (sample_world 1) 0). reflexivity.
Defined.

(** X16: in every world a run from a new profiler reaches, a marker that
    is started has an action stored in [_action_at_start]. *)
Theorem started_marker_has_action (h : Host) (p : Profiler) (ops : list Op)
    (l : loc) (m : Marker) :
  marker_at (run ops (new_world h p)) l m → _started m = true →
  ∃ a, _action_at_start m = Some a.
Proof.
  intros Hm Hs.
  assert (Hall : Forall (λ m, _started m = true → is_Some (_action_at_start m))
                   (heap (run ops (new_world h p)))).
  { apply (run_relates (λ w0 w1,
        Forall (λ m, _started m = true → is_Some (_action_at_start m)) (heap w0) →
        Forall (λ m, _started m = true → is_Some (_action_at_start m)) (heap w1)));
      [done|auto| |by constructor].
    intros w0 w1 Hstep Hall. destruct Hstep as [| | |l0 m0 m0' evs Hm0 Hup|m0 r Hs0 _];
      simpl; try done.
    - apply Forall_insert; [done|].
      pose proof (Forall_lookup_1 _ _ _ _ Hall Hm0) as H0.
      destruct Hup; simpl; [done|by eexists|done].
    - apply Forall_app. split; [done|]. constructor; [|done]. congruence. }
  by apply (Forall_lookup_1 _ _ _ _ Hall Hm Hs).
Qed.

Lemma started_marker_has_action_witness :
  ∃ a, _action_at_start
         (with_started true (with_action_at_start (Some ACTIVE)
            (new_marker "fwd" [WARMUP; ACTIVE] false false []))) = Some a.
Proof.
  apply (started_marker_has_action (host_at 1) (Profiler_default "run")
           [op_marker "fwd" [WARMUP; ACTIVE] false false []; op_start 0] 0);
    reflexivity.
Defined.

(** ** Merging the traces *)

Lemma fold_left_append {A B} (f : B → list A) (l : list B) (acc : list A) :
  fold_left (λ (acc : list A) x, (acc ++ f x)%list) l acc = (acc ++ (l ≫= f))%list.
Proof.
  revert acc. induction l as [|x l IH]; intros acc; simpl.
  - by rewrite app_nil_r.
  - by rewrite IH, app_assoc.
Qed.

Lemma fold_left_ext {A B} (f g : A → B → A) l acc :
  (∀ a x, f a x = g a x) → fold_left f l acc = fold_left g l acc.
Proof.
  intros H. revert acc. induction l as [|x l IH]; intros acc; simpl; [done|].
  by rewrite H, IH.
Qed.

Lemma trace_folders_of_eq callbacks :
  trace_folders_of callbacks = callbacks ≫= trace_folder.
Proof.
  unfold trace_folders_of.
  rewrite (fold_left_ext _ (λ (acc : list string) cb, (acc ++ trace_folder cb)%list)).
  - by rewrite fold_left_append.
  - intros acc [d|d|i]; simpl; by rewrite ?app_nil_r.
Qed.

Lemma endswith_spec s suffix :
  endswith s suffix = true ↔ ∃ stem, s = stem +:+ suffix.
Proof.
  induction s as [|c s IH].
  - destruct suffix as [|c' suffix]; simpl.
    + split; [by exists ""|done].
    + split; [done|]. intros [stem E]. destruct stem; discriminate E.
  - change (endswith (String c s) suffix)
      with (if String.eqb (String c s) suffix then true else endswith s suffix).
    destruct (String.eqb_spec (String c s) suffix) as [<-|Hne].
    + split; [by exists ""|done].
    + rewrite IH. split.
      * intros [stem ->]. by exists (String c stem).
      * intros [[|c' stem] E]; cbv [String.append] in E; fold String.append in E;
          [congruence|].
        injection E as -> ->. by exists stem.
Qed.

Lemma trace_files_of_eq walk folders :
  trace_files_of walk folders
  = filter (λ filepath, endswith filepath ".json" = true)
      (folders ≫= walked_paths walk).
Proof.
  unfold trace_files_of.
  rewrite (fold_left_ext _
             (λ (acc : list string) folder,
                (acc ++ filter (λ filepath, endswith filepath ".json" = true)
                          (walked_paths walk folder))%list)).
  - rewrite fold_left_append. simpl.
    induction folders as [|f fs IH]; [done|].
    rewrite !bind_cons, filter_app. by rewrite IH.
  - intros acc folder. unfold walked_paths.
    generalize (walk folder). intros entries. revert acc.
    induction entries as [|[[rootdir dirnames] filenames] es IH]; intros acc.
    + simpl. by rewrite app_nil_r.
    + cbn [fold_left]. rewrite IH. rewrite bind_cons, filter_app, app_assoc. f_equal.
      simpl. clear IH. revert acc.
      induction filenames as [|fn fns IHf]; intros acc; simpl.
      * by rewrite app_nil_r.
      * rewrite IHf, filter_cons. destruct (endswith (os_path_join rootdir fn) ".json") eqn:E.
        -- rewrite decide_True by done. by rewrite <- app_assoc.
        -- by rewrite decide_False by congruence.
Qed.

(** X17: [merge_traces] reaches the barrier first on every rank.  A process
    whose local rank is not 0 does nothing more.  Local rank 0 logs and
    calls the merger exactly once, on [merged_trace_file], with the paths
    [os.walk] finds under the directories of the [JSONTraceHandler] and
    [TorchProfiler] callbacks, in order, that end in [.json]; with no such
    callback the merger is still called, with no file. *)
Theorem merge_traces_on_local_rank_zero (local_rank : Z) (callbacks : list Callback)
    (walk : string → list WalkEntry) (self : Profiler) :
  head (merge_traces local_rank callbacks walk self) = Some dist_barrier ∧
  (local_rank ≠ 0 → merge_traces local_rank callbacks walk self = [dist_barrier]) ∧
  (local_rank = 0 →
     ∃ trace_files,
       merge_traces local_rank callbacks walk self
       = [dist_barrier;
          log_info "Merging profiling trace files together";
          json_trace_merger_merge_traces (merged_trace_file self) trace_files] ∧
       trace_files
       = filter (λ filepath, endswith filepath ".json" = true)
           ((callbacks ≫= trace_folder) ≫= walked_paths walk) ∧
       Forall (λ filepath, ∃ stem, filepath = stem +:+ ".json") trace_files ∧
       (Forall (λ callback, trace_folder callback = []) callbacks → trace_files = [])).
Proof.
  split_and!.
  - done.
  - intros Hr. unfold merge_traces.
    destruct (Z.eqb_spec local_rank 0); [done|]. done.
  - intros ->. eexists. split; [reflexivity|].
    rewrite trace_files_of_eq, trace_folders_of_eq. split_and!.
    + done.
    + apply Forall_forall. intros x Hx. apply list_elem_of_filter in Hx as [Hx _].
      by apply endswith_spec.
    + intros Hall. assert (callbacks ≫= trace_folder = []) as ->; [|done].
      induction Hall as [|cb cbs Hcb _ IH]; [done|].
      by rewrite bind_cons, Hcb, IH.
Qed.

Lemma merge_traces_on_local_rank_zero_witness :
  merge_traces 1 [JSONTraceHandlerCallback "traces"] (λ _, [("traces", [], ["a.json"])])
    (Profiler_default "run") = [dist_barrier] ∧
  merge_traces 0 [JSONTraceHandlerCallback "traces"; OtherCallback 0]
    (λ _, [("traces", ["sub"], ["a.json"; "b.txt"]); ("traces/sub", [], ["c.json"])])
    (Profiler_default "run")
  = [dist_barrier;
     log_info "Merging profiling trace files together";
     json_trace_merger_merge_traces "run/merged_profiler_trace.json"
       ["traces/a.json"; "traces/sub/c.json"]].
Proof.
  split; [|reflexivity].
  apply (merge_traces_on_local_rank_zero 1 [JSONTraceHandlerCallback "traces"]
           (λ _, [("traces", [], ["a.json"])]) (Profiler_default "run")).
  discriminate.
Defined.


(** ** Decoding a streamed MNIST image *)

Lemma rows_of_lookup {A} rows cols (arr : list A) i :
  (i < rows)%nat → rows_of rows cols arr !! i = Some (take cols (drop (i * cols) arr)).
Proof.
  revert arr i. induction rows as [|r IH]; intros arr i Hi; [lia|].
  destruct i as [|i]; simpl; [done|].
  rewrite IH by lia. by rewrite drop_drop.
Qed.

Lemma concat_rows_of {A} rows cols (arr : list A) :
  length arr = (rows * cols)%nat → concat (rows_of rows cols arr) = arr.
Proof.
  revert arr. induction rows as [|r IH]; intros arr Hlen; simpl.
  - by destruct arr.
  - rewrite IH; [apply take_drop|]. rewrite length_drop. simpl in Hlen. lia.
Qed.

Lemma rows_of_widths {A} rows cols (arr : list A) :
  length arr = (rows * cols)%nat →
  Forall (λ row, length row = cols) (rows_of rows cols arr).
Proof.
  revert arr. induction rows as [|r IH]; intros arr Hlen; simpl; [done|].
  simpl in Hlen. constructor.
  - rewrite length_take. lia.
  - apply IH. rewrite length_drop. lia.
Qed.

(** X18: [StreamingMNIST.decode_image] returns an image exactly when it is
    given 784 bytes, and raises [ValueError] otherwise.  The image is 28 by
    28 in mode L; its rows put end to end are the bytes given, the pixel at
    column [x] of row [y] being byte [28 * y + x], a value from 0 to 255. *)
Theorem decode_image_spec (data : list byte) :
  (length data = 784%nat →
     ∃ img, decode_image data = Returns img ∧
       mode img = "L" ∧ width img = 28%nat ∧ height img = 28%nat ∧
       Forall (λ row, length row = 28%nat) (pixels img) ∧
       concat (pixels img) = np_frombuffer_uint8 data ∧
       (∀ x y, (x < 28)%nat → (y < 28)%nat →
          getpixel img x y = (λ b, Z.of_N (Byte.to_N b)) <$> data !! (y * 28 + x)%nat) ∧
       Forall (Forall (λ v, 0 <= v < 256)) (pixels img)) ∧
  (length data ≠ 784%nat → ∃ msg, decode_image data = RaisesValueError msg).
Proof.
  unfold decode_image, reshape.
  assert (Hlen : length (np_frombuffer_uint8 data) = length data)
    by apply length_fmap.
  split.
  - intros H784. rewrite decide_True by (by rewrite Hlen).
    eexists. split; [reflexivity|].
    assert (Hw : Forall (λ row, length row = 28%nat)
                   (rows_of 28 28 (np_frombuffer_uint8 data))).
    { apply rows_of_widths. by rewrite Hlen. }
    assert (Hc : concat (rows_of 28 28 (np_frombuffer_uint8 data))
                 = np_frombuffer_uint8 data).
    { apply concat_rows_of. by rewrite Hlen. }
    split_and!; try done.
    + unfold Image_fromarray. cbn [width].
      change (length (take 28 (np_frombuffer_uint8 data)) = 28%nat).
      rewrite length_take, Hlen. lia.
    + intros x y Hx Hy. unfold getpixel, Image_fromarray. cbn [pixels].
      rewrite rows_of_lookup by done. simpl.
      rewrite lookup_take_lt, lookup_drop by done.
      apply list_lookup_fmap.
    + unfold Image_fromarray. cbn [pixels].
      assert (Hall : Forall (λ v, 0 <= v < 256) (np_frombuffer_uint8 data)).
      { apply Forall_fmap, Forall_forall. intros b _. simpl.
        pose proof (Byte.to_N_bounded b). lia. }
      rewrite <- Hc in Hall. by apply Forall_concat.
  - intros Hne. rewrite decide_False by (by rewrite Hlen). by eexists.
Qed.

Lemma decode_image_spec_witness :
  ∃ img, decode_image (replicate 784 Byte.x2a) = Returns img ∧
         getpixel img 27 27 = Some 42.
Proof.
  destruct (decode_image_spec (replicate 784 Byte.x2a)) as [H _].
  destruct H as (img & Himg & _ & _ & _ & _ & _ & Hpix & _); [reflexivity|].
  exists img. split; [done|]. rewrite Hpix by lia. reflexivity.
Defined.

(** ** The optimizer registry *)





(** ** Categories within a pair *)

(** X21: an event carries the marker's categories of the moment it is
    emitted.  When [Profiler.marker] is called again for a started marker
    with other categories, the end of the duration (and the instant at the
    finish) is reported under the new categories, the start having been
    reported under the old ones. *)
Theorem categories_can_change_within_pair (w : World) (l : loc) (m : Marker)
    (a : ProfilerAction) (acts : list ProfilerAction) (on_start on_finish : bool)
    (cats : list string) :
  marker_at w l m → registered w (name m) l → _started m = false →
  current_action w = Ok a → py_in a (actions m) = true →
  ∃ w',
    (start l ;; marker (name m) acts on_start on_finish cats ;; finish l) w = (Ok tt, w') ∧
    marker_at w' l (with_categories cats (with_action_at_start (Some a) m)) ∧
    calls w'
    = (calls w
       ++ fan_out w (duration_of w m true)
       ++ (if record_instant_on_start m then fan_out w (instant_of w m) else [])
       ++ fan_out w (duration_of w (with_categories cats m) false)
       ++ (if record_instant_on_finish m
           then fan_out w (instant_of w (with_categories cats m)) else []))%list.
Proof.
  intros Hm Hr Hs Ha Hin.
  rewrite (bind_ok _ _ _ _ _ (start_ok _ _ _ _ Hm Hs Ha)).
  pose proof (marker_at_after_start w l m a Hm) as Hm1.
  set (m1 := with_started true (with_action_at_start (Some a) m)) in *.
  set (w1 := after_start w l m a) in *.
  assert (Hr1 : registered w1 (name m1) l) by done.
  rewrite (bind_ok _ _ _ _ _ (marker_existing _ _ _ _ acts on_start on_finish cats Hr1 Hm1)).
  set (w2 := set_heap _ w1).
  assert (Hm2 : marker_at w2 l (with_categories cats m1)) by (by eapply marker_at_insert).
  rewrite (finish_ok _ _ _ Hm2 eq_refl).
  eexists. split; [reflexivity|]. split.
  - unfold marker_at. simpl. rewrite !list_insert_insert_eq.
    rewrite list_lookup_insert_eq by (by eapply lookup_lt_Some).
    f_equal. destruct m. simpl in Hs. by subst.
  - simpl. unfold start_calls, finish_calls. simpl. rewrite Hin.
    by rewrite <- !app_assoc.
Qed.

Lemma categories_can_change_within_pair_witness :
  calls ((start 0 ;; marker "fwd" [] false false ["late"] ;; finish 0) (sample_world 1)).2
  = [(JSONTraceHandler,
      process_duration_event "fwd" [] (mkTimestamp 0 1 1) true 1001 0 4242);
     (JSONTraceHandler,
      process_duration_event "fwd" ["late"] (mkTimestamp 0 1 1) false 1001 0 4242)].
Proof.
  destruct (categories_can_change_within_pair (sample_world 1) 0
              (new_marker "fwd" [WARMUP; ACTIVE] false false []) ACTIVE
              [] false false ["late"])
    as (w' & Hrun & _ & Hcalls); [reflexivity..|].
  cbn [name new_marker] in Hrun. rewrite Hrun. cbn [snd]. rewrite Hcalls.
  reflexivity.
Defined.
